(** * Discrete exponential families over top-k states

    A shallow embedding of [l2x/synth/distributions.py]: the classes
    [DiscreteExpFamily] and [TopK], with the properties their
    specification states about them.

    Conventions of the embedding.
    - A 1-D tensor is a [list R]; a 2-D tensor is a [tensor2], a list of
      rows with its column count.  Tensor entries are real numbers: the
      rounding, overflow and NaN of [float32] are outside this model, and
      [torch.log] and [torch.exp] are [ln] and [exp].
    - Python integers ([m], [k]) are [Z]; tensor indices are [nat].
    - A Python exception is a constructor of [exn]; a method that can
      raise, or that reads and writes the fields of [self] (the cached
      [_states]), is a computation in the monad [M]: it takes the object
      and returns a result or an exception together with the object as it
      is afterwards.
    - [torch.argsort] is not stable by default: the order of equal
      entries is not specified.  [argsort_desc] here is the stable
      descending order; what is proved of it beyond "some descending
      order" is stated for pairwise distinct entries.
    - What the code prints is not modelled, nor are [sample] and
      [sample_f], which draw from numpy's generator. *)

From Stdlib Require Import Reals Lra ZArith QArith Lia List Permutation Sorted String Ascii.
From stdpp Require Import base list sorting strings gmap.

#[global] Instance R_eq_dec : EqDecision R := Req_dec_T.
#[global] Instance Rlt_decision (x y : R) : Decision (x < y)%R := Rlt_dec x y.

(** ** Exceptions and the state-and-exception monad *)

Inductive exn : Type :=
| NotImplementedError
| ValueError (msg : string)
| AssertionError (msg : string)
| IndexError (msg : string)
| RuntimeError (msg : string)
| AttributeError (msg : string).

Inductive result (A : Type) : Type :=
| Ok (a : A)
| Raise (e : exn).
Arguments Ok {A} a.
Arguments Raise {A} e.

Definition M (S A : Type) : Type := S → result A * S.

Definition ret {S A} (a : A) : M S A := λ s, (Ok a, s).
Definition raise {S A} (e : exn) : M S A := λ s, (Raise e, s).
Definition bind {S A B} (c : M S A) (f : A → M S B) : M S B :=
  λ s, match c s with
       | (Ok a, s') => f a s'
       | (Raise e, s') => (Raise e, s')
       end.
Definition lift {S A} (r : result A) : M S A := λ s, (r, s).
Definition get {S} : M S S := λ s, (Ok s, s).
Definition put {S} (s : S) : M S unit := λ _, (Ok tt, s).

Declare Scope py_scope.
Delimit Scope py_scope with py.
Notation "'let*' x ':=' c 'in' f" := (bind c (λ x, f))
  (at level 10, x name, c at level 100, f at level 200,
   format "'[v' 'let*'  x  ':='  c  'in' '/' f ']'") : py_scope.

Definition rbind {A B} (r : result A) (f : A → result B) : result B :=
  match r with Ok a => f a | Raise e => Raise e end.

(** [assert cond, msg] *)
Definition py_assert {S} (cond : bool) (msg : string) : M S unit :=
  if cond then ret tt else raise (AssertionError msg).

(** ** Tensors *)

Record tensor2 : Type := Tensor2 { ncols : nat; rows : list (list R) }.

Definition nrows (t : tensor2) : nat := length (rows t).

(** Every row has the declared number of columns. *)
Definition tensor2_wf (t : tensor2) : Prop :=
  Forall (λ r, length r = ncols t) (rows t).

Definition sumR (l : list R) : R := foldr Rplus 0%R l.

Fixpoint dot (u v : list R) : R :=
  match u, v with
  | x :: u', y :: v' => (x * y + dot u' v')%R
  | _, _ => 0%R
  end.

(** [torch.zeros(n)] *)
Definition zeros (n : Z) : result (list R) :=
  if decide (n < 0)%Z
  then Raise (RuntimeError "Trying to create tensor with negative dimension")
  else Ok (replicate (Z.to_nat n) 0%R).

(** [torch.zeros((b, n))] *)
Definition zeros2 (b : nat) (n : Z) : result tensor2 :=
  rbind (zeros n) (λ z, Ok (Tensor2 (Z.to_nat n) (replicate b z))).

(** [np.zeros((b, n))] *)
Definition np_zeros2 (b : nat) (n : Z) : result tensor2 :=
  if decide (n < 0)%Z
  then Raise (ValueError "negative dimensions are not allowed")
  else Ok (Tensor2 (Z.to_nat n) (replicate b (replicate (Z.to_nat n) 0%R))).

(** [u op v] on 1-D tensors, with broadcasting of a length-1 operand. *)
Definition broadcast2 (f : R → R → R) (u v : list R) : result (list R) :=
  if decide (length u = length v) then Ok (zip_with f u v)
  else match u, v with
       | [x], _ => Ok (f x <$> v)
       | _, [y] => Ok ((λ x, f x y) <$> u)
       | _, _ => Raise (RuntimeError "The size of tensor a must match the size of tensor b")
       end.

(** [s @ theta], a matrix times a vector. *)
Definition matvec (s : tensor2) (theta : list R) : result (list R) :=
  if decide (ncols s = length theta)
  then Ok ((λ r, dot r theta) <$> rows s)
  else Raise (RuntimeError "size mismatch").

Definition column (j : nat) (s : tensor2) : list R :=
  (λ r, nth j r 0%R) <$> rows s.

(** [p @ s], a vector times a matrix. *)
Definition vecmat (p : list R) (s : tensor2) : result (list R) :=
  if decide (length p = nrows s)
  then Ok ((λ j, dot p (column j s)) <$> seq 0 (ncols s))
  else Raise (RuntimeError "size mismatch").

(** [torch.argmax]: the index of the first maximal entry. *)
Fixpoint argmax_from (best_i : nat) (best : R) (i : nat) (l : list R) : nat :=
  match l with
  | [] => best_i
  | x :: l' =>
      if decide (best < x)%R
      then argmax_from i x (S i) l'
      else argmax_from best_i best (S i) l'
  end.

Definition argmax (l : list R) : result nat :=
  match l with
  | [] => Raise (IndexError "argmax(): Expected reduction dim to be specified for input.numel() == 0")
  | x :: l' => Ok (argmax_from 0 x 1 l')
  end.

(** [torch.argsort(theta, descending=True)]: the indices of [theta] by
    decreasing value, equal values in index order. *)
Fixpoint insert_desc (p : nat * R) (l : list (nat * R)) : list (nat * R) :=
  match l with
  | [] => [p]
  | q :: l' =>
      if decide (q.2 < p.2)%R then p :: q :: l' else q :: insert_desc p l'
  end.

Definition sort_desc (l : list (nat * R)) : list (nat * R) :=
  foldr insert_desc [] l.

Definition argsort_desc (theta : list R) : list nat :=
  fst <$> sort_desc (zip (seq 0 (length theta)) theta).

(** [l[:k]] for a Python integer [k]: a negative [k] counts from the end. *)
Definition py_slice_to {A} (k : Z) (l : list A) : list A :=
  if decide (0 ≤ k)%Z then take (Z.to_nat k) l
  else take (length l - Z.to_nat (- k)) l.

(** [t[ind] = v]: writes [v] at every index of [ind]; an index outside
    [t] raises. *)
Fixpoint index_fill (t : list R) (ind : list nat) (v : R) : result (list R) :=
  match ind with
  | [] => Ok t
  | i :: ind' =>
      if decide (i < length t) then index_fill (<[i:=v]> t) ind' v
      else Raise (IndexError "index out of range")
  end.

(** [t[dim_0, dim_1] = v] on a 2-D tensor, for two index vectors of the
    same length. *)
Fixpoint index_fill2 (t : list (list R)) (ind : list (nat * nat)) (v : R)
  : result (list (list R)) :=
  match ind with
  | [] => Ok t
  | (i, j) :: ind' =>
      match t !! i with
      | Some r =>
          if decide (j < length r) then index_fill2 (<[i:=<[j:=v]> r]> t) ind' v
          else Raise (IndexError "index out of range")
      | None => Raise (IndexError "index out of range")
      end
  end.

(** The two index vectors of [t[dim_0, dim_1]] are broadcast against each
    other: equal lengths, or one of them of length 1. *)
Definition broadcast_index (d0 d1 : list nat) : result (list (nat * nat)) :=
  if decide (length d0 = length d1) then Ok (zip d0 d1)
  else match d0, d1 with
       | [i], _ => Ok (pair i <$> d1)
       | _, [j] => Ok ((λ i, (i, j)) <$> d0)
       | _, _ => Raise (IndexError "shape mismatch: indexing tensors could not be broadcast together")
       end.

(** [for x in l: body], on a state that the body updates or raises from. *)
Definition for_each {A S} (l : list A) (body : A → S → result S) (s : S)
  : result S :=
  foldl (λ acc x, rbind acc (body x)) (Ok s) l.

(** ** Integers and combinations *)

(** [range(n)] *)
Definition py_range (n : Z) : list nat := seq 0 (Z.to_nat n).

(** The combinations of [r] elements of [l], in the order
    [itertools.combinations] emits them (lexicographic in positions). *)
Fixpoint combinations_nat {A} (l : list A) (r : nat) : list (list A) :=
  match r with
  | O => [[]]
  | S r' =>
      match l with
      | [] => []
      | x :: l' => (cons x <$> combinations_nat l' r') ++ combinations_nat l' r
      end
  end.

(** [itertools.combinations(l, r)], materialised by [list()]. *)
Definition combinations {A} (l : list A) (r : Z) : result (list (list A)) :=
  if decide (r < 0)%Z then Raise (ValueError "r must be non-negative")
  else Ok (combinations_nat l (Z.to_nat r)).

(** [math.factorial] *)
Definition factorial (n : Z) : result Z :=
  if decide (n < 0)%Z
  then Raise (ValueError "factorial() not defined for negative values")
  else Ok (Z.of_nat (fact (Z.to_nat n))).

(** ** The context object

    [ctx] is an object of the caller with two optional attributes; it is
    passed by reference, or is [None].  [frozen] tells whether assigning
    an attribute raises [AttributeError]. *)
Record Ctx : Type := MkCtx {
  eps : option (list R);
  sample : option (list R);
  frozen : bool
}.

(** [hasattr(ctx, 'eps')] and [hasattr(ctx, 'sample')]; [None] has
    neither attribute. *)
Definition hasattr_eps (ctx : option Ctx) : bool :=
  match ctx with
  | Some c => match eps c with Some _ => true | None => false end
  | None => false
  end.

Definition hasattr_sample (ctx : option Ctx) : bool :=
  match ctx with
  | Some c => match sample c with Some _ => true | None => false end
  | None => false
  end.

(** [ctx.sample] *)
Definition getattr_sample (ctx : option Ctx) : result (list R) :=
  match ctx with
  | Some (MkCtx _ (Some z) _) => Ok z
  | _ => Raise (AttributeError "object has no attribute 'sample'")
  end.

(** [ctx.eps] *)
Definition getattr_eps (ctx : option Ctx) : result (list R) :=
  match ctx with
  | Some (MkCtx (Some e) _ _) => Ok e
  | _ => Raise (AttributeError "object has no attribute 'eps'")
  end.

(** What a call of a returned closure works on: the engine [self], the
    state of the caller's noise generator, and the [ctx] object the call
    was given. *)
Record Env (Self G : Type) : Type := MkEnv {
  env_self : Self;
  env_gen : G;
  env_ctx : option Ctx
}.
Arguments MkEnv {Self G} _ _ _.
Arguments env_self {Self G} _.
Arguments env_gen {Self G} _.
Arguments env_ctx {Self G} _.

(** A method of [self], run inside a closure call. *)
Definition on_self {Self G A} (c : M Self A) : M (Env Self G) A :=
  λ e, let '(r, s') := c (env_self e) in (r, MkEnv s' (env_gen e) (env_ctx e)).

(** ** [class DiscreteExpFamily] *)
Module DiscreteExpFamily.
Section Methods.
Local Open Scope py_scope.

(** The class is abstract: its methods go through [self.m], the
    property [self.states] and the method [self.map] of the object they
    are called on. *)
Context {Self : Type}.
Variable self_m : Self → Z.
Variable self_states : M Self tensor2.
Variable self_map : list R → M Self (list R).

(** The [states] of the base class itself. *)
Definition states : M Self tensor2 := raise NotImplementedError.

Definition n_states : M Self nat :=
  let* s := self_states in ret (nrows s).

Definition weights (theta : list R) : M Self (list R) :=
  let* s := self_states in lift (matvec s theta).

Definition log_partition (theta : list R) : M Self R :=
  let* w := weights theta in ret (ln (sumR (exp <$> w))).

Definition pmf (theta : list R) : M Self (list R) :=
  let* w := weights theta in
  let* lp := log_partition theta in
  ret ((λ x, exp (x - lp)%R) <$> w).

Definition marginals (theta : list R) : M Self (list R) :=
  let* p := pmf theta in
  let* s := self_states in
  lift (vecmat p s).

(** The basic map: the row of [states] of the largest weight. *)
Definition map (theta : list R) : M Self (list R) :=
  let* s := self_states in
  let* w := weights theta in
  let* i := lift (argmax w) in
  match rows s !! i with
  | Some r => ret r
  | None => raise (IndexError "index out of range")
  end.

Section Closures.
(** [noise_f] is a function of no argument of the caller, drawing
    one number at each call from a generator of state [G]. *)
Context {G : Type}.
Variable noise_f : G → R * G.

(** [[noise_f() for _ in range(n)]] *)
Fixpoint draw (n : nat) (g : G) : list R * G :=
  match n with
  | O => ([], g)
  | S n' =>
      let '(x, g1) := noise_f g in
      let '(xs, g2) := draw n' g1 in
      (x :: xs, g2)
  end.

(** [torch.stack([noise_f() for _ in range(self.m)])] *)
Definition stack_noise : M (Env Self G) (list R) :=
  λ e, let '(xs, g') := draw (Z.to_nat (self_m (env_self e))) (env_gen e) in
       let e' := MkEnv (env_self e) g' (env_ctx e) in
       match xs with
       | [] => (Raise (RuntimeError "stack expects a non-empty TensorList"), e')
       | _ => (Ok xs, e')
       end.

(** [try: ctx.eps = eps  except AttributeError: print(...)], under
    [if ctx is not None]. *)
Definition store_eps (e : list R) : M (Env Self G) unit :=
  λ env, match env_ctx env with
         | None => (Ok tt, env)
         | Some c =>
             if frozen c then (Ok tt, env)
             else (Ok tt, MkEnv (env_self env) (env_gen env)
                            (Some (MkCtx (Some e) (sample c) (frozen c))))
         end.

(** [_pam], the closure [perturb_and_map(noise_f)] returns. *)
Definition perturb_and_map (theta : list R) : M (Env Self G) (list R) :=
  let* env := get in
  let* e :=
    if hasattr_eps (env_ctx env) then lift (getattr_eps (env_ctx env))
    else let* e := stack_noise in
         let* _ := store_eps e in
         ret e in
  let* theta_prime := lift (broadcast2 Rplus theta e) in
  on_self (self_map theta_prime).

(** [_glp], the closure [grad_log_p(mu_f)] returns; [mu_f] is
    [self.marginals] when none is given. *)
Definition grad_log_p (mu_f : option (list R → M Self (list R)))
    (theta : list R) : M (Env Self G) (list R) :=
  let mu_f := match mu_f with Some f => f | None => marginals end in
  let* mu_theta := on_self (mu_f theta) in
  let* env := get in
  let* _ := py_assert (hasattr_sample (env_ctx env))
              "must save the forward value with ctx.sample!" in
  let* z := lift (getattr_sample (env_ctx env)) in
  lift (broadcast2 Rminus z mu_theta).
End Closures.

Section Sampling.
(** The generator [rng] is an object of numpy with a state of type [G].
    [choice g a p] is [rng.choice(a, p=p)] on a generator in state [g]:
    what it returns or raises, and the state it leaves. *)
Context {G : Type}.
Variable choice : G → list nat → list R → result nat * G.

(** The argument [rng] of [sample]: [None], in which case
    [np.random.RandomState()] makes a generator, in the state given
    here, that is dropped after the call; or the generator of the
    caller, which is [env_gen]. *)
Inductive rng_arg : Type :=
| rng_None (seeded : G)
| rng_caller.

(** [rng.choice(a, p=p)] on the generator the call uses. *)
Definition rng_choice (rng : rng_arg) (a : list nat) (p : list R)
  : M (Env Self G) nat :=
  λ e, match rng with
       | rng_None g => ((choice g a p).1, e)
       | rng_caller =>
           let '(r, g') := choice (env_gen e) a p in
           (r, MkEnv (env_self e) g' (env_ctx e))
       end.

Definition sample (theta : list R) (rng : rng_arg) : M (Env Self G) (list R) :=
  let* _pmft := on_self (pmf theta) in
  let* n_states := on_self n_states in
  let* indx_ch := rng_choice rng (seq 0 n_states) _pmft in
  let* s := on_self self_states in
  match rows s !! indx_ch with
  | Some res => ret res
  | None => raise (IndexError "index out of range")
  end.

(** [sample_f(rng)]: the sampler on the generator of the caller. *)
Definition sample_f : list R → M (Env Self G) (list R) :=
  λ th, sample th rng_caller.
End Sampling.
End Methods.
End DiscreteExpFamily.

(** ** [class TopK(DiscreteExpFamily)] *)
Module TopK.
Local Open Scope py_scope.

(** The fields of an instance: [m] and [_states] are set by the
    constructor of the base class, [k] and [device] by [TopK]'s. *)
Record t : Type := Make {
  m : Z;
  k : Z;
  device : option string;
  _states : option tensor2
}.


Definition set_states (self : t) (s : tensor2) : t :=
  Make (m self) (k self) (device self) (Some s).

(** The closed form the enumeration is checked against:
    [n_states == factorial(n) / (factorial(k) * factorial(n - k))],
    a true division, taken here in the rationals. *)
Definition count_check (n_states : nat) (fn fk fnk : Z) : bool :=
  Qeq_bool (inject_Z (Z.of_nat n_states)) (inject_Z fn / inject_Z (fk * fnk)).

(** The property [states]: all the ways to set [k] of [m] entries,
    one per row, computed at the first access and kept in [_states]. *)
Definition states : M t tensor2 :=
  let* self := get in
  match _states self with
  | Some s => ret s
  | None =>
      let n := m self in
      let k := k self in
      let* combs := lift (combinations (py_range n) k) in
      let n_states := length combs in
      let* fn := lift (factorial n) in
      let* fk := lift (factorial k) in
      let* fnk := lift (factorial (n - k)) in
      let* _ := py_assert (count_check n_states fn fk fnk) EmptyString in
      let* mat_x := lift (np_zeros2 (length combs) n) in
      let* filled :=
        lift (for_each (seq 0 n_states)
                (λ i mat, match combs !! i with
                          | Some c => index_fill2 mat (pair i <$> c) 1%R
                          | None => Raise (IndexError "list index out of range")
                          end)
                (rows mat_x)) in
      let s := Tensor2 (ncols mat_x) filled in
      let* _ := put (set_states self s) in
      ret s
  end.

(** [arange(batch_size).view(-1, 1).repeat(1, k).view(-1)] *)
Definition repeat_each (batch_size : nat) (k : Z) : result (list nat) :=
  if decide (k < 0)%Z
  then Raise (RuntimeError "Trying to create tensor with negative dimension")
  else Ok (concat ((λ i, replicate (Z.to_nat k) i) <$> seq 0 batch_size)).

Definition map_2d (theta_2d : tensor2) : M t tensor2 :=
  let* self := get in
  let batch_size := nrows theta_2d in
  let* state_2d := lift (zeros2 batch_size (m self)) in
  let ind1_2d :=
    (λ r, py_slice_to (k self) (argsort_desc r)) <$> rows theta_2d in
  let* dim_0 := lift (repeat_each batch_size (k self)) in
  let dim_1 := concat ind1_2d in
  let* ind := lift (broadcast_index dim_0 dim_1) in
  let* filled := lift (index_fill2 (rows state_2d) ind 1%R) in
  ret (Tensor2 (ncols state_2d) filled).

Definition map (theta : list R) : M t (list R) :=
  let* self := get in
  let* state := lift (zeros (m self)) in
  let ind1 := py_slice_to (k self) (argsort_desc theta) in
  lift (index_fill state ind1 1%R).

(** The methods [TopK] inherits, on a [TopK] object. *)
Definition weights := DiscreteExpFamily.weights states.
Definition log_partition := DiscreteExpFamily.log_partition states.
Definition pmf := DiscreteExpFamily.pmf states.
Definition marginals := DiscreteExpFamily.marginals states.
Definition base_map := DiscreteExpFamily.map states.
Definition perturb_and_map {G} (noise_f : G → R * G) :=
  DiscreteExpFamily.perturb_and_map m map noise_f.
Definition grad_log_p {G} := @DiscreteExpFamily.grad_log_p t states G.
Definition n_states := DiscreteExpFamily.n_states states.
Definition sample {G} (choice : G → list nat → list R → result nat * G) :=
  DiscreteExpFamily.sample states choice.
Definition sample_f {G} (choice : G → list nat → list R → result nat * G) :=
  DiscreteExpFamily.sample_f states choice.
End TopK.

(** ** Definitions of the proofs *)

(** The binomial coefficient, by Pascal's rule. *)
Fixpoint choose (n r : nat) : nat :=
  match r with
  | O => 1
  | S r' => match n with
            | O => 0
            | S n' => choose n' r' + choose n' r
            end
  end.

(** What [index_fill] returns when every index is inside [t]. *)
Fixpoint scatter (t : list R) (ind : list nat) (v : R) : list R :=
  match ind with
  | [] => t
  | i :: ind' => scatter (<[i:=v]> t) ind' v
  end.

(** The vectors of length [n] over 0 and 1 with [r] ones, in the order
    the enumeration of [TopK.states] produces them. *)
Fixpoint binrows (n r : nat) : list (list R) :=
  match n with
  | O => match r with O => [[]] | S _ => [] end
  | S n' =>
      match r with
      | O => []
      | S r' => cons 1%R <$> binrows n' r'
      end ++ (cons 0%R <$> binrows n' r)
  end.

Definition ones (l : list R) : nat := length (filter (λ x, x = 1%R) l).
Definition zeroes (l : list R) : nat := length (filter (λ x, x = 0%R) l).
Definition binary (l : list R) : Prop := Forall (λ x, x = 0%R ∨ x = 1%R) l.

(** Sorted by decreasing value. *)
Definition desc : list (nat * R) → Prop :=
  StronglySorted (λ p q, (q.2 <= p.2)%R).

Definition sorted_pairs (theta : list R) : list (nat * R) :=
  sort_desc (zip (seq 0 (length theta)) theta).

(** An indicator [t] marks the entries of a vector that lie above the
    threshold [tau]; strictly, when no unmarked entry reaches it. *)
Definition above (tau t y : R) : Prop :=
  (t = 1 ∧ tau <= y)%R ∨ (t = 0 ∧ y <= tau)%R.
Definition above_strict (tau t y : R) : Prop :=
  (t = 1 ∧ tau <= y)%R ∨ (t = 0 ∧ y < tau)%R.

(** The state [TopK.map] builds for [theta]. *)
Definition topk_state (k : nat) (theta : list R) : list R :=
  scatter (replicate (length theta) 0%R) (take k (argsort_desc theta)) 1%R.

(** The state matrix of [TopK(m, k)]. *)
Definition enum_states (m k : Z) : tensor2 :=
  Tensor2 (Z.to_nat m) (binrows (Z.to_nat m) (Z.to_nat k)).

Definition cache_ok (self : TopK.t) : Prop :=
  TopK._states self = None
  ∨ TopK._states self = Some (enum_states (TopK.m self) (TopK.k self)).

(** The object with the parameters of [self], before any access to
    [states]. *)
Definition fresh (self : TopK.t) : TopK.t :=
  TopK.Make (TopK.m self) (TopK.k self) (TopK.device self) None.

(** The invariant of [_states]: it is [None], or holds what [states]
    computed on the object when it was [None]. *)
Definition cache_valid (self : TopK.t) : Prop :=
  ∀ s, TopK._states self = Some s → (TopK.states (fresh self)).1 = Ok s.

(** [if mu_f is None: mu_f = self.marginals] *)
Definition default_mu (mu_f : option (list R → M TopK.t (list R)))
  : list R → M TopK.t (list R) :=
  match mu_f with Some f => f | None => TopK.marginals end.


(** ** Sample inputs *)

Definition ex_self : TopK.t := TopK.Make 3 2 None None.
Definition ex_theta : list R := [3; 1; 2]%R.
Definition ex_batch : tensor2 := Tensor2 3 [[3; 1; 2]; [1; 2; 3]]%R.
Definition ex_ctx_sample : Ctx := MkCtx None (Some [1; 1; 0]%R) false.
Definition ex_noise (n : nat) : R * nat := (INR n, S n).

(** ** Definitions of the further properties *)




(** ** Python values of the scripts

    The two scripts work on strings, integers, lists and dicts of
    Python; their exceptions are those of the built-in types. *)
Module Py.

Inductive key : Type :=
| KStr (s : string)
| KInt (i : Z).

Inductive exn : Type :=
| KeyError (k : key)
| IndexError (msg : string)
| TypeError
| AttributeError
| ValueError (msg : string).

Inductive outcome (A : Type) : Type :=
| Return (a : A)
| Raised (e : exn).
Arguments Return {A} a.
Arguments Raised {A} e.

Definition obind {A B} (r : outcome A) (f : A → outcome B) : outcome B :=
  match r with Return a => f a | Raised e => Raised e end.

(** A list comprehension whose element expression can raise. *)
Fixpoint comprehension {A B} (f : A → outcome B) (l : list A) : outcome (list B) :=
  match l with
  | [] => Return []
  | x :: l' =>
      obind (f x) (λ y, obind (comprehension f l') (λ ys, Return (y :: ys)))
  end.

(** [l[i]] for an index that is not negative. *)
Definition getitem {A} (l : list A) (i : nat) : outcome A :=
  match l !! i with
  | Some x => Return x
  | None => Raised (IndexError "list index out of range")
  end.

(** [l[i]] for a Python integer: a negative index counts from the end. *)
Definition getitem_int {A} (l : list A) (i : Z) : outcome A :=
  if decide (0 ≤ i)%Z then getitem l (Z.to_nat i)
  else if decide (0 ≤ Z.of_nat (length l) + i)%Z
       then getitem l (Z.to_nat (Z.of_nat (length l) + i))
       else Raised (IndexError "list index out of range").

(** [s.split(sep)] for a separator of one character. *)
Fixpoint split (sep : ascii) (s : string) : list string :=
  match s with
  | EmptyString => [EmptyString]
  | String c s' =>
      if decide (c = sep) then EmptyString :: split sep s'
      else match split sep s' with
           | p :: ps => String c p :: ps
           | [] => [String c EmptyString]
           end
  end.

(** [s.startswith(p)] *)
Definition startswith (p s : string) : bool := String.prefix p s.

(** [s.replace(old, new)] for a non-empty [old]: every occurrence, from
    the left, without overlap.  [skip] counts the characters of a match
    still to pass over. *)
Fixpoint replace_from (old new : string) (skip : nat) (s : string) : string :=
  match s with
  | EmptyString => EmptyString
  | String c s' =>
      match skip with
      | S k => replace_from old new k s'
      | O =>
          if String.prefix old s
          then (new ++ replace_from old new (String.length old - 1) s')%string
          else String c (replace_from old new 0 s')
      end
  end.

Definition replace (old new s : string) : string := replace_from old new 0 s.

(** [l.index(x)] *)
Definition index (x : string) (l : list string) : outcome nat :=
  match list_find (λ y, y = x) l with
  | Some (i, _) => Return i
  | None => Raised (ValueError "x is not in list")
  end.

(** [x in l] *)
Definition contains (x : string) (l : list string) : bool :=
  bool_decide (x ∈ l).
End Py.

(** ** [snippets/explore_data.py] *)
Module ExploreData.
Import Py.

(** A row of [csv.DictReader]: the field names to the values of the row,
    [None] for the fields a short row does not have. *)
Abbreviation row := (gmap string (option string)).

(** [row[key]] *)
Definition field (r : row) (k : string) : outcome (option string) :=
  match r !! k with
  | Some v => Return v
  | None => Raised (KeyError (KStr k))
  end.

(** [a + b] on values that are strings or [None]. *)
Definition concat (a b : option string) : outcome string :=
  match a, b with
  | Some x, Some y => Return (x ++ y)%string
  | _, _ => Raised TypeError
  end.

(** [marked.split('*')] on a value that is a string or [None]. *)
Definition split_star (marked : option string) : outcome (list string) :=
  match marked with
  | Some s => Return (split "*" s)
  | None => Raised AttributeError
  end.

(** [len(marked.split('*'))//2] *)
Definition count_highlights (marked : option string) : outcome nat :=
  obind (split_star marked) (λ parts, Return (length parts / 2)).

(** [[marked.split('*')[2*i + 1] for i in range(l)]] *)
Definition highlights_of (marked : option string) (l : nat) : outcome (list string) :=
  comprehension
    (λ i, obind (split_star marked) (λ parts, getitem parts (2 * i + 1)))
    (seq 0 l).

(** The body of the loop, up to the three [append]s: the sentence, the
    label and the highlights of a row. *)
Definition process_row (r : row)
  : outcome (string * option string * list string) :=
  obind (field r "Sentence1") (λ premise,
  obind (field r "Sentence2") (λ hypothesis,
  obind (concat premise (Some " "%string)) (λ ps,
  obind (concat (Some ps) hypothesis) (λ sentence,
  obind (field r "gold_label") (λ label,
  obind (field r "Sentence1_marked_1") (λ highlighted_premise,
  obind (field r "Sentence2_marked_1") (λ highlighted_hypothesis,
  obind (count_highlights highlighted_premise) (λ l1,
  obind (count_highlights highlighted_hypothesis) (λ l2,
  obind (highlights_of highlighted_premise l1) (λ premise_highlights,
  obind (highlights_of highlighted_hypothesis l2) (λ hypothesis_highlights,
  Return (sentence, label, premise_highlights ++ hypothesis_highlights)))))))))))).



End ExploreData.

(** ** [token_classification/conll-cli.py]

    The dataset, the tokenizer, the model and the trainer are objects of
    libraries; the script's own code is the table [b_to_i_label], the
    alignment of the labels with the tokens, and the filter of
    [compute_metrics].  What the libraries supply is an argument here:
    the names [label_list], the word index of every token
    [word_ids], the metric [metric_compute]. *)
Module ConllCli.
Import Py.

(** [label_to_id = {i: i for i in range(len(label_list))}], looked up. *)
Definition label_to_id (num_labels : nat) (i : Z) : outcome Z :=
  if decide (0 ≤ i < Z.of_nat num_labels)%Z then Return i
  else Raised (KeyError (KInt i)).

(** One turn of the loop that builds [b_to_i_label]: the entry of the
    label [label] at [idx]. *)
Definition b_to_i_entry (label_list : list string) (idx : nat) (label : string)
  : outcome nat :=
  if startswith "B-" label && contains (replace "B-" "I-" label) label_list
  then index (replace "B-" "I-" label) label_list
  else Return idx.

(** [b_to_i_label], after the loop over [enumerate(label_list)]. *)
Definition b_to_i_label (label_list : list string) : outcome (list nat) :=
  comprehension (λ '(idx, label), b_to_i_entry label_list idx label)
    (zip (seq 0 (length label_list)) label_list).

(** The inner loop of [tokenize_and_align_labels], from the token at
    hand on: [previous_word_idx] is the word of the token before. *)
Fixpoint align_from (label_all_tokens : bool) (num_labels : nat)
    (b_to_i : list nat) (label : list Z)
    (previous_word_idx : option nat) (word_ids : list (option nat))
  : outcome (list Z) :=
  match word_ids with
  | [] => Return []
  | word_idx :: rest =>
      obind
        (match word_idx with
         | None => Return (-100)%Z
         | Some w =>
             if decide (word_idx ≠ previous_word_idx)
             then obind (getitem label w) (label_to_id num_labels)
             else if label_all_tokens
                  then obind (getitem label w) (λ l,
                       obind (label_to_id num_labels l) (λ i,
                       obind (getitem_int b_to_i i) (λ j,
                       Return (Z.of_nat j))))
                  else Return (-100)%Z
         end)
        (λ label_id,
           obind (align_from label_all_tokens num_labels b_to_i label word_idx rest)
             (λ label_ids, Return (label_id :: label_ids)))
  end.

(** [label_ids] of one example. *)
Definition align_labels (label_all_tokens : bool) (num_labels : nat)
    (b_to_i : list nat) (word_ids : list (option nat)) (label : list Z)
  : outcome (list Z) :=
  align_from label_all_tokens num_labels b_to_i label None word_ids.

(** The value the script gives [label_all_tokens]. *)
Definition label_all_tokens : bool := false.

(** [labels] of [tokenize_and_align_labels]: the [label_ids] of every
    example of the batch; [word_ids i] is
    [tokenized_inputs.word_ids(batch_index=i)]. *)
Definition tokenize_and_align_labels (num_labels : nat) (b_to_i : list nat)
    (word_ids : nat → list (option nat)) (ner_tags : list (list Z))
  : outcome (list (list Z)) :=
  comprehension
    (λ '(i, label), align_labels label_all_tokens num_labels b_to_i (word_ids i) label)
    (zip (seq 0 (length ner_tags)) ner_tags).

(** [[label_list[p] for (p, l) in zip(prediction, label) if l != -100]] *)
Definition kept_predictions (label_list : list string)
    (prediction label : list Z) : outcome (list string) :=
  comprehension (λ '(p, l), getitem_int label_list p)
    (filter (λ '(p, l), l ≠ (-100)%Z) (zip prediction label)).

(** [[label_list[l] for (p, l) in zip(prediction, label) if l != -100]] *)
Definition kept_labels (label_list : list string)
    (prediction label : list Z) : outcome (list string) :=
  comprehension (λ '(p, l), getitem_int label_list l)
    (filter (λ '(p, l), l ≠ (-100)%Z) (zip prediction label)).

Definition true_predictions (label_list : list string)
    (predictions labels : list (list Z)) : outcome (list (list string)) :=
  comprehension (λ '(prediction, label), kept_predictions label_list prediction label)
    (zip predictions labels).

Definition true_labels (label_list : list string)
    (predictions labels : list (list Z)) : outcome (list (list string)) :=
  comprehension (λ '(prediction, label), kept_labels label_list prediction label)
    (zip predictions labels).

(** [np.argmax] of one vector of scores: the first largest entry. *)
Definition np_argmax (scores : list R) : outcome Z :=
  match scores with
  | [] => Raised (ValueError "attempt to get argmax of an empty sequence")
  | x :: l => Return (Z.of_nat (argmax_from 0 x 1 l))
  end.

(** [np.argmax(predictions, axis=2)] *)
Definition argmax_axis2 (predictions : list (list (list R)))
  : outcome (list (list Z)) :=
  comprehension (comprehension np_argmax) predictions.

(** What [metric.compute] returns, as far as the script reads it. *)
Record results (V : Type) : Type := Results {
  overall_precision : V;
  overall_recall : V;
  overall_f1 : V;
  overall_accuracy : V
}.
Arguments Results {V} _ _ _ _.
Arguments overall_precision {V} _.
Arguments overall_recall {V} _.
Arguments overall_f1 {V} _.
Arguments overall_accuracy {V} _.

(** The dict [compute_metrics] returns. *)
Record metrics (V : Type) : Type := Metrics {
  precision : V;
  recall : V;
  f1 : V;
  accuracy : V
}.
Arguments Metrics {V} _ _ _ _.
Arguments precision {V} _.
Arguments recall {V} _.
Arguments f1 {V} _.
Arguments accuracy {V} _.

Definition compute_metrics {V} (label_list : list string)
    (metric_compute : list (list string) → list (list string) → outcome (results V))
    (p : list (list (list R)) * list (list Z)) : outcome (metrics V) :=
  let '(predictions, labels) := p in
  obind (argmax_axis2 predictions) (λ predictions,
  obind (true_predictions label_list predictions labels) (λ tp,
  obind (true_labels label_list predictions labels) (λ tl,
  obind (metric_compute tp tl) (λ results,
  Return (Metrics (overall_precision results) (overall_recall results)
            (overall_f1 results) (overall_accuracy results)))))).
End ConllCli.

(** The word of each token that starts a word: the tokens whose word
    index is not [None] and differs from that of the token before. *)
Fixpoint word_starts (previous : option nat) (word_ids : list (option nat))
  : list nat :=
  match word_ids with
  | [] => []
  | None :: rest => word_starts None rest
  | Some w :: rest =>
      if decide (Some w ≠ previous) then w :: word_starts (Some w) rest
      else word_starts (Some w) rest
  end.

(** The elements at the odd positions of a list. *)
Fixpoint odds {A} (l : list A) : list A :=
  match l with
  | _ :: x :: l' => x :: odds l'
  | _ => []
  end.

(** [sep.join(parts)] *)
Fixpoint join (sep : string) (parts : list string) : string :=
  match parts with
  | [] => EmptyString
  | [p] => p
  | p :: parts' => (p ++ sep ++ join sep parts')%string
  end.

(** The characters of a string. *)
Fixpoint chars (s : string) : list ascii :=
  match s with
  | EmptyString => []
  | String c s' => c :: chars s'
  end.

(** ** Sample inputs of the further properties *)

Definition ex_self_k5 : TopK.t := TopK.Make 3 5 None None.
Definition ex_self_m0 : TopK.t := TopK.Make 0 0 None None.

Definition ex_row : ExploreData.row :=
  <["Sentence1"%string := Some "a dog runs"%string]>
  (<["Sentence2"%string := Some "an animal moves"%string]>
  (<["gold_label"%string := Some "entailment"%string]>
  (<["Sentence1_marked_1"%string := Some "a *dog* runs"%string]>
  (<["Sentence2_marked_1"%string := Some "an *animal* *moves*"%string]> ∅)))).

Definition ex_label_list : list string := ["O"; "B-PER"; "I-PER"]%string.
Definition ex_word_ids : list (option nat) := [None; Some 0; Some 0; Some 1; None].
Definition ex_tags : list Z := [1; 2]%Z.
Definition ex_scores : list (list (list R)) :=
  [[[0; 1; 0]; [0; 0; 1]; [1; 0; 0]; [0; 0; 1]; [1; 0; 0]]]%R.
Definition ex_metric (tp tl : list (list string)) : Py.outcome (ConllCli.results nat) :=
  Py.Return (ConllCli.Results (length tp) (length tl) 0 0).

(** * Lemmas *)

Lemma choose_gt n : ∀ r, n < r → choose n r = 0.
Proof.
  induction n as [|n IH]; intros [|r] Hr; simpl; try lia.
  rewrite !IH by lia. done.
Qed.

Lemma choose_diag n : choose n n = 1.
Proof.
  induction n as [|n IH]; simpl; [done|].
  rewrite IH, choose_gt by lia. done.
Qed.

Lemma choose_fact n : ∀ r, r ≤ n → choose n r * (fact r * fact (n - r)) = fact n.
Proof.
  induction n as [|n IH]; intros [|r] Hr; simpl choose.
  - simpl. lia.
  - lia.
  - rewrite Nat.sub_0_r. simpl fact at 1. lia.
  - destruct (decide (r = n)) as [->|Hne].
    + rewrite choose_diag, choose_gt by lia.
      replace (S n - S n) with 0 by lia. simpl (fact 0). lia.
    + assert (H1 := IH r ltac:(lia)). assert (H2 := IH (S r) ltac:(lia)).
      replace (S n - S r) with (n - r) by lia.
      replace (n - r) with (S (n - S r)) in * by lia.
      change (fact (S n)) with (S n * fact n).
      change (fact (S r)) with (S r * fact r) in *.
      change (fact (S (n - S r))) with (S (n - S r) * fact (n - S r)) in *.
      set (a := fact r) in *. set (b := fact (n - S r)) in *.
      set (c := choose n r) in *. set (d := choose n (S r)) in *.
      set (e := n - S r) in *. assert (n = r + S e) as Hn by lia.
      clearbody a b c d e. subst n. nia.
Qed.

Lemma length_combinations_nat {A} (l : list A) : ∀ r,
  length (combinations_nat l r) = choose (length l) r.
Proof.
  induction l as [|x l IH]; intros [|r]; simpl; try done.
  rewrite length_app, length_fmap, !IH. done.
Qed.

Lemma length_scatter t ind v : length (scatter t ind v) = length t.
Proof.
  revert t. induction ind as [|i ind IH]; intros t; simpl; [done|].
  rewrite IH, length_insert. done.
Qed.

Lemma index_fill_scatter t ind v :
  Forall (λ i, i < length t) ind → index_fill t ind v = Ok (scatter t ind v).
Proof.
  revert t. induction ind as [|i ind IH]; intros t Hall; simpl; [done|].
  inversion Hall as [|?? Hi Hrest]; subst.
  rewrite decide_True by done. apply IH.
  eapply Forall_impl; [exact Hrest|]. intros j Hj. simpl. by rewrite length_insert.
Qed.

Lemma scatter_cons_S x t ind v :
  scatter (x :: t) (S <$> ind) v = x :: scatter t ind v.
Proof.
  revert t. induction ind as [|i ind IH]; intros t; simpl; [done|].
  apply IH.
Qed.

Lemma scatter_lookup t ind v j :
  j < length t →
  scatter t ind v !! j = if decide (j ∈ ind) then Some v else t !! j.
Proof.
  revert t. induction ind as [|i ind IH]; intros t Hj; cbn [scatter].
  - case_decide as Hin; [by apply elem_of_nil in Hin|done].
  - rewrite IH by (by rewrite length_insert).
    destruct (decide (j ∈ ind)) as [Hin|Hnin]; case_decide as Hc; try done.
    + contradict Hc. by right.
    + apply elem_of_cons in Hc as [->|?]; [|done].
      by rewrite list_lookup_insert_eq.
    + rewrite list_lookup_insert_ne; [done|]. intros ->. apply Hc. by left.
Qed.

Lemma elem_of_combinations_nat {A} (l : list A) : ∀ r c,
  c ∈ combinations_nat l r → c ⊆ l.
Proof.
  induction l as [|x l IH]; intros [|r] c; simpl.
  - intros ->%list_elem_of_singleton. done.
  - by intros ?%elem_of_nil.
  - intros ->%list_elem_of_singleton. intros y Hy. by apply elem_of_nil in Hy.
  - intros [Hc|Hc]%elem_of_app.
    + apply list_elem_of_fmap in Hc as (c' & -> & Hc'). apply IH in Hc'.
      intros y [->|Hy]%elem_of_cons; [by left|]. right. by apply Hc'.
    + apply IH in Hc. intros y Hy. right. by apply Hc.
Qed.

Lemma binrows_0 n : binrows n 0 = [replicate n 0%R].
Proof. induction n as [|n IH]; simpl; [done|]. by rewrite IH. Qed.

Lemma shift_indices s (c : list nat) :
  Forall (λ i, S s ≤ i) c → (λ i, i - s) <$> c = S <$> ((λ i, i - S s) <$> c).
Proof.
  intros Hc. rewrite <- list_fmap_compose. apply Forall_fmap_ext_1.
  eapply Forall_impl; [exact Hc|]. intros i Hi. unfold compose. simpl in *. lia.
Qed.

(** Rows of the enumeration, over the index range [s, s+n). *)
Lemma rows_combinations n : ∀ s r,
  (λ c, scatter (replicate n 0%R) ((λ i, i - s) <$> c) 1%R)
    <$> combinations_nat (seq s n) r
  = binrows n r.
Proof.
  induction n as [|n IH]; intros s r.
  - destruct r; done.
  - destruct r as [|r].
    + rewrite binrows_0. done.
    + simpl seq. simpl combinations_nat. simpl binrows.
      rewrite fmap_app, <- list_fmap_compose.
      rewrite <- (IH (S s) r), <- (IH (S s) (S r)), <- !list_fmap_compose.
      f_equal; apply Forall_fmap_ext_1, Forall_forall; intros c Hc;
        apply elem_of_combinations_nat in Hc; simpl.
      * rewrite Nat.sub_diag. simpl. rewrite shift_indices.
        { apply scatter_cons_S. }
        apply Forall_forall. intros i Hi. apply Hc, elem_of_seq in Hi. lia.
      * rewrite shift_indices.
        { apply (scatter_cons_S 0%R). }
        apply Forall_forall. intros i Hi. apply Hc, elem_of_seq in Hi. lia.
Qed.

Lemma rows_combinations_0 n r :
  (λ c, scatter (replicate n 0%R) c 1%R) <$> combinations_nat (seq 0 n) r
  = binrows n r.
Proof.
  rewrite <- (rows_combinations n 0 r). apply Forall_fmap_ext_1, Forall_forall.
  intros c _. f_equal. rewrite <- (list_fmap_id c) at 1.
  apply Forall_fmap_ext_1, Forall_forall. intros i _. simpl. lia.
Qed.

Lemma ones_cons x l : ones (x :: l) = (if decide (x = 1%R) then 1 else 0) + ones l.
Proof. unfold ones. rewrite filter_cons. by destruct (decide _). Qed.

Lemma elem_of_binrows n : ∀ r x,
  x ∈ binrows n r ↔ length x = n ∧ binary x ∧ ones x = r.
Proof.
  induction n as [|n IH]; intros r x; simpl.
  - destruct r; split.
    + intros ->%list_elem_of_singleton. repeat split; [constructor].
    + intros (Hl & _ & _). destruct x; [by left|done].
    + by intros ?%elem_of_nil.
    + intros (Hl & _ & Ho). destruct x; done.
  - rewrite elem_of_app. split.
    + intros [Hx|Hx].
      * destruct r as [|r]; [by apply elem_of_nil in Hx|].
        apply list_elem_of_fmap in Hx as (y & -> & Hy). apply IH in Hy as (Hl & Hb & Ho).
        split; [simpl; lia|]. split; [constructor; auto|].
        rewrite ones_cons, decide_True by done. lia.
      * apply list_elem_of_fmap in Hx as (y & -> & Hy). apply IH in Hy as (Hl & Hb & Ho).
        split; [simpl; lia|]. split; [constructor; auto|].
        rewrite ones_cons, decide_False by lra. lia.
    + intros (Hl & Hb & Ho). destruct x as [|a x]; [done|].
      apply Forall_cons in Hb as [Ha Hb']. rewrite ones_cons in Ho.
      destruct Ha as [->| ->].
      * right. apply list_elem_of_fmap. exists x. split; [done|]. apply IH.
        rewrite decide_False in Ho by lra. repeat split; auto; simpl in *; lia.
      * rewrite decide_True in Ho by done. destruct r as [|r]; [lia|].
        left. apply list_elem_of_fmap. exists x. split; [done|]. apply IH.
        repeat split; auto; simpl in *; lia.
Qed.

Lemma NoDup_binrows n : ∀ r, NoDup (binrows n r).
Proof.
  induction n as [|n IH]; intros r; simpl.
  - destruct r; [apply NoDup_singleton|apply NoDup_nil_2].
  - apply NoDup_app. split; [|split].
    + destruct r; [apply NoDup_nil_2|]. apply NoDup_fmap_2; [|apply IH].
      intros ?? Heq. by inversion Heq.
    + intros x Hx Hx'. destruct r; [by apply elem_of_nil in Hx|].
      apply list_elem_of_fmap in Hx as (y & -> & _).
      apply list_elem_of_fmap in Hx' as (y' & Heq & _). inversion Heq. lra.
    + apply NoDup_fmap_2; [|apply IH]. intros ?? Heq. by inversion Heq.
Qed.









Lemma argmax_from_spec l : ∀ bi b i,
  (argmax_from bi b i l = bi ∧ Forall (λ y, y <= b)%R l)
  ∨ (∃ n x, argmax_from bi b i l = i + n ∧ l !! n = Some x
            ∧ (b < x)%R ∧ Forall (λ y, y <= x)%R l).
Proof.
  induction l as [|y l IH]; intros bi b i; simpl.
  - left. split; [done|constructor].
  - case_decide as Hlt.
    + right. destruct (IH i y (S i)) as [[-> Hall]|(n & x & -> & Hn & Hx & Hall)].
      * exists 0, y. repeat split; [lia|done|constructor; [lra|done]].
      * exists (S n), x. repeat split; [lia|done|lra|constructor; [lra|done]].
    + destruct (IH bi b (S i)) as [[-> Hall]|(n & x & -> & Hn & Hx & Hall)].
      * left. split; [done|]. constructor; [lra|done].
      * right. exists (S n), x. repeat split; [lia|done|done|constructor; [lra|done]].
Qed.



Lemma insert_desc_perm p l : insert_desc p l ≡ₚ p :: l.
Proof.
  induction l as [|q l IH]; simpl; [done|].
  case_decide; [done|]. rewrite IH. apply Permutation_swap.
Qed.

Lemma sort_desc_perm l : sort_desc l ≡ₚ l.
Proof.
  induction l as [|p l IH]; simpl; [done|].
  rewrite insert_desc_perm. by rewrite IH.
Qed.

Lemma insert_desc_sorted p l : desc l → desc (insert_desc p l).
Proof.
  unfold desc. induction l as [|q l IH]; intros Hs; simpl.
  - repeat constructor.
  - apply StronglySorted_cons in Hs as [Hq Hs]. case_decide as Hlt.
    + apply StronglySorted_cons. split.
      * constructor; [lra|]. eapply Forall_impl; [exact Hq|]. simpl. intros; lra.
      * apply StronglySorted_cons. done.
    + apply StronglySorted_cons. split; [|by apply IH].
      rewrite insert_desc_perm. constructor; [lra|done].
Qed.

Lemma sort_desc_sorted l : desc (sort_desc l).
Proof.
  induction l as [|p l IH]; simpl; [constructor|]. by apply insert_desc_sorted.
Qed.

Lemma desc_lookup l a b p q :
  desc l → l !! a = Some p → l !! b = Some q → a < b → (q.2 <= p.2)%R.
Proof.
  intros Hs Ha Hb Hab. rewrite <- (take_drop b l) in Hs.
  eapply (StronglySorted_app_1_elem_of _ _ _ p q) in Hs; [done| |].
  - apply elem_of_take. eauto.
  - apply list_elem_of_lookup. exists 0. by rewrite lookup_drop, Nat.add_0_r.
Qed.

Lemma elem_of_zip_seq (theta : list R) : ∀ s i y,
  (i, y) ∈ zip (seq s (length theta)) theta ↔ s ≤ i ∧ theta !! (i - s) = Some y.
Proof.
  induction theta as [|x theta IH]; intros s i y; simpl.
  - split; [by intros ?%elem_of_nil|]. by intros [_ ?].
  - rewrite elem_of_cons, IH. split.
    + intros [[= -> ->]|[Hle Hl]].
      * split; [lia|]. by rewrite Nat.sub_diag.
      * split; [lia|]. by replace (i - s) with (S (i - S s)) by lia.
    + intros [Hle Hl]. destruct (decide (i = s)) as [->|Hne].
      * left. rewrite Nat.sub_diag in Hl. simpl in Hl. by inversion Hl.
      * right. split; [lia|]. by replace (i - s) with (S (i - S s)) in Hl by lia.
Qed.

Lemma elem_of_sorted_pairs theta i y :
  (i, y) ∈ sorted_pairs theta ↔ theta !! i = Some y.
Proof.
  unfold sorted_pairs. rewrite sort_desc_perm, elem_of_zip_seq, Nat.sub_0_r.
  split; [by intros [_ ?]|]. intros ?; split; [lia|done].
Qed.

Lemma argsort_desc_perm theta : argsort_desc theta ≡ₚ seq 0 (length theta).
Proof.
  unfold argsort_desc. rewrite sort_desc_perm, fst_zip; [done|].
  by rewrite length_seq.
Qed.

Lemma argsort_desc_NoDup theta : NoDup (argsort_desc theta).
Proof. rewrite argsort_desc_perm. apply NoDup_seq. Qed.

Lemma length_argsort_desc theta : length (argsort_desc theta) = length theta.
Proof. by rewrite argsort_desc_perm, length_seq. Qed.

Lemma argsort_desc_lt theta i : i ∈ argsort_desc theta → i < length theta.
Proof. rewrite argsort_desc_perm, elem_of_seq. lia. Qed.

(** The [k] first indices are those of the entries above a threshold. *)
Lemma argsort_desc_threshold theta k :
  0 < k ≤ length theta →
  ∃ tau, ∀ i y, theta !! i = Some y →
    (i ∈ take k (argsort_desc theta) → (tau <= y)%R)
    ∧ (i ∉ take k (argsort_desc theta) →
       (y <= tau)%R ∧ (NoDup theta → (y < tau)%R)).
Proof.
  intros Hk. set (srt := sorted_pairs theta).
  assert (length srt = length theta) as Hlen.
  { unfold srt, sorted_pairs. by rewrite sort_desc_perm, length_zip, length_seq, Nat.min_id. }
  destruct (lookup_lt_is_Some_2 srt (k - 1)) as [[i0 tau] H0]; [lia|].
  exists tau. intros i y Hy.
  pose proof (proj2 (elem_of_sorted_pairs theta i y) Hy) as Hin. fold srt in Hin.
  apply list_elem_of_lookup in Hin as [j Hj].
  unfold argsort_desc. fold (sorted_pairs theta). fold srt. rewrite <- fmap_take. split.
  - intros Hi. apply list_elem_of_fmap in Hi as ([i' y'] & Heq & Hi'). simpl in Heq. subst i'.
    apply elem_of_take in Hi' as (j' & Hj' & Hlt).
    assert (y' = y) as ->.
    { assert ((i, y') ∈ srt) as Hm by (apply list_elem_of_lookup; eauto).
      apply elem_of_sorted_pairs in Hm. congruence. }
    destruct (decide (j' = k - 1)) as [->|Hne].
    + rewrite H0 in Hj'. inversion Hj'. lra.
    + apply (desc_lookup srt j' (k - 1) (i, y) (i0, tau)); auto; [apply sort_desc_sorted|lia].
  - intros Hi.
    assert (k ≤ j) as Hkj.
    { destruct (decide (k ≤ j)); [done|]. contradict Hi.
      apply list_elem_of_fmap. exists (i, y). split; [done|].
      apply elem_of_take. exists j. split; [done|lia]. }
    assert (y <= tau)%R as Hle.
    { apply (desc_lookup srt (k - 1) j (i0, tau) (i, y)); auto; [apply sort_desc_sorted|lia]. }
    split; [done|]. intros Hnd.
    assert (y ≠ tau); [|lra]. intros ->.
    assert (theta !! i0 = Some tau) as Hi0.
    { apply elem_of_sorted_pairs, list_elem_of_lookup; eauto. }
    assert (i = i0) as -> by (eapply NoDup_lookup; eauto).
    apply Hi, list_elem_of_fmap. exists (i0, tau). split; [done|].
    apply elem_of_take. exists (k - 1). split; [done|lia].
Qed.

Lemma ones_replicate n : ones (replicate n 0%R) = 0.
Proof.
  induction n as [|n IH]; [done|]. simpl replicate.
  rewrite ones_cons, decide_False by lra. done.
Qed.

Lemma ones_insert t : ∀ i, t !! i = Some 0%R → ones (<[i:=1%R]> t) = S (ones t).
Proof.
  induction t as [|x t IH]; intros [|i] Hi; simpl in *; try done.
  - inversion Hi; subst. rewrite !ones_cons, decide_True, decide_False by lra. done.
  - rewrite !ones_cons, IH by done. lia.
Qed.

Lemma ones_scatter ind : ∀ t,
  NoDup ind → Forall (λ i, t !! i = Some 0%R) ind →
  ones (scatter t ind 1%R) = ones t + length ind.
Proof.
  induction ind as [|i ind IH]; intros t Hnd Hall; simpl; [lia|].
  apply NoDup_cons in Hnd as [Hi Hnd]. apply Forall_cons in Hall as [Hti Hall].
  rewrite IH, ones_insert; [lia|done|done|].
  apply Forall_forall. intros j Hj. rewrite list_lookup_insert_ne.
  - by eapply Forall_forall in Hall.
  - intros ->. done.
Qed.

Lemma binary_scatter n ind : binary (scatter (replicate n 0%R) ind 1%R).
Proof.
  apply Forall_lookup. intros j x Hx.
  assert (j < n) as Hj.
  { apply lookup_lt_Some in Hx. by rewrite length_scatter, length_replicate in Hx. }
  rewrite scatter_lookup in Hx by (by rewrite length_replicate).
  case_decide; [right; congruence|].
  rewrite lookup_replicate_2 in Hx by done. left. congruence.
Qed.


Lemma topk_state_above k theta :
  0 < k ≤ length theta →
  ∃ tau, Forall2 (above tau) (topk_state k theta) theta
         ∧ (NoDup theta → Forall2 (above_strict tau) (topk_state k theta) theta).
Proof.
  intros Hk. destruct (argsort_desc_threshold theta k Hk) as [tau Htau].
  assert (length (topk_state k theta) = length theta) as Hlen.
  { unfold topk_state. by rewrite length_scatter, length_replicate. }
  exists tau. split; [|intros Hnd];
    (apply Forall2_same_length_lookup_2; [done|]); intros i t y Ht Hy;
    pose proof (lookup_lt_Some _ _ _ Hy) as Hi;
    unfold topk_state in Ht;
    rewrite scatter_lookup in Ht by (by rewrite length_replicate);
    destruct (Htau i y Hy) as [Hin Hout];
    case_decide as Hc.
  - left. split; [congruence|auto].
  - rewrite lookup_replicate_2 in Ht by done. right. split; [congruence|]. by apply Hout.
  - left. split; [congruence|auto].
  - rewrite lookup_replicate_2 in Ht by done. right. split; [congruence|]. by apply Hout.
Qed.

Lemma index_fill2_row c v : ∀ mat i r,
  mat !! i = Some r → Forall (λ j, j < length r) c →
  index_fill2 mat (pair i <$> c) v = Ok (<[i:=scatter r c v]> mat).
Proof.
  induction c as [|j c IH]; intros mat i r Hi Hc; simpl.
  - by rewrite list_insert_id.
  - apply Forall_cons in Hc as [Hj Hc]. rewrite Hi, decide_True by done.
    pose proof (lookup_lt_Some _ _ _ Hi) as Hlt.
    rewrite (IH _ i (<[j:=v]> r)).
    + by rewrite list_insert_insert_eq.
    + by rewrite list_lookup_insert_eq.
    + eapply Forall_impl; [exact Hc|]. intros ??. simpl. by rewrite length_insert.
Qed.

Lemma index_fill2_app v p1 : ∀ mat p2,
  index_fill2 mat (p1 ++ p2) v
  = rbind (index_fill2 mat p1 v) (λ mat', index_fill2 mat' p2 v).
Proof.
  induction p1 as [|[i j] p1 IH]; intros mat p2; simpl; [done|].
  destruct (mat !! i); [|done]. case_decide; [|done]. apply IH.
Qed.

(** The loop of [states]: row [i] receives the ones of [combs[i]]. *)
Lemma fill_loop (combs : list (list nat)) z v d : ∀ j,
  j + d = length combs →
  Forall (Forall (λ i, i < length z)) combs →
  for_each (seq j d)
    (λ i mat, match combs !! i with
              | Some c => index_fill2 mat (pair i <$> c) v
              | None => Raise (IndexError "list index out of range")
              end)
    (((λ c, scatter z c v) <$> take j combs) ++ replicate d z)
  = Ok ((λ c, scatter z c v) <$> combs).
Proof.
  unfold for_each. induction d as [|d IH]; intros j Hj Hall; simpl.
  - rewrite take_ge by lia. by rewrite app_nil_r.
  - destruct (lookup_lt_is_Some_2 combs j) as [c Hc]; [lia|].
    rewrite Hc. erewrite index_fill2_row; cycle 1.
    + rewrite lookup_app_r; rewrite length_fmap, length_take; [|lia].
      replace (j - j `min` length combs) with 0 by lia. done.
    + eapply Forall_lookup in Hall; eauto.
    + rewrite <- (IH (S j)) by (done || lia). f_equal. f_equal.
      rewrite (take_S_r _ _ _ Hc), fmap_app. simpl.
      rewrite insert_app_r_alt; rewrite length_fmap, length_take; [|lia].
      replace (j - j `min` length combs) with 0 by lia. simpl.
      by rewrite <- app_assoc.
Qed.

Lemma count_check_choose n r :
  r ≤ n →
  TopK.count_check (choose n r) (Z.of_nat (fact n)) (Z.of_nat (fact r))
    (Z.of_nat (fact (n - r))) = true.
Proof.
  intros Hr. unfold TopK.count_check. apply Qeq_bool_iff.
  rewrite <- (choose_fact n r Hr).
  rewrite <- Nat2Z.inj_mul, Nat2Z.inj_mul, inject_Z_mult.
  pose proof (lt_O_fact r). pose proof (lt_O_fact (n - r)).
  field. intros Hq. unfold Qeq in Hq. simpl in Hq. nia.
Qed.

Lemma states_fresh self :
  TopK._states self = None →
  (0 ≤ TopK.k self ≤ TopK.m self)%Z →
  TopK.states self
  = (Ok (enum_states (TopK.m self) (TopK.k self)),
     TopK.set_states self (enum_states (TopK.m self) (TopK.k self))).
Proof.
  intros Hnone Hk. destruct self as [m k dev st]. simpl in *. subst st.
  unfold TopK.states, bind, get, lift, put, ret. simpl.
  unfold combinations, factorial, np_zeros2, py_range.
  rewrite !decide_False by lia. simpl.
  rewrite length_combinations_nat, length_seq.
  replace (Z.to_nat (m - k)) with (Z.to_nat m - Z.to_nat k) by lia.
  rewrite count_check_choose by lia. simpl.
  pose proof (fill_loop (combinations_nat (seq 0 (Z.to_nat m)) (Z.to_nat k))
                (replicate (Z.to_nat m) 0%R) 1%R
                (choose (Z.to_nat m) (Z.to_nat k)) 0) as Hloop.
  simpl in Hloop. rewrite Hloop.
  - unfold enum_states. by rewrite rows_combinations_0.
  - by rewrite length_combinations_nat, length_seq.
  - apply Forall_forall. intros c Hc. apply Forall_forall. intros i Hi.
    apply elem_of_combinations_nat in Hc. apply Hc, elem_of_seq in Hi.
    rewrite length_replicate. lia.
Qed.

Lemma states_ok self :
  cache_ok self → (0 ≤ TopK.k self ≤ TopK.m self)%Z →
  TopK.states self
  = (Ok (enum_states (TopK.m self) (TopK.k self)),
     TopK.set_states self (enum_states (TopK.m self) (TopK.k self))).
Proof.
  intros [Hnone|Hsome] Hk; [by apply states_fresh|].
  destruct self as [m k dev st]. simpl in *. subst st.
  done.
Qed.

Lemma cache_ok_set_states self :
  cache_ok (TopK.set_states self (enum_states (TopK.m self) (TopK.k self))).
Proof. right. done. Qed.

Lemma cache_valid_ok self :
  (0 ≤ TopK.k self ≤ TopK.m self)%Z → cache_valid self → cache_ok self.
Proof.
  intros Hk Hv. destruct (TopK._states self) as [s|] eqn:Hs; [|by left].
  right. specialize (Hv s Hs). rewrite states_fresh in Hv by done.
  simpl in Hv. rewrite Hs. by inversion Hv.
Qed.


Lemma length_binrows n r : length (binrows n r) = choose n r.
Proof.
  rewrite <- rows_combinations_0, length_fmap, length_combinations_nat, length_seq.
  done.
Qed.

Lemma topk_map_ok self theta :
  (0 ≤ TopK.k self)%Z → (0 ≤ TopK.m self)%Z →
  length theta = Z.to_nat (TopK.m self) →
  TopK.map theta self = (Ok (topk_state (Z.to_nat (TopK.k self)) theta), self).
Proof.
  intros Hk Hm Hl. unfold TopK.map, bind, get, lift, zeros, py_slice_to.
  rewrite decide_False by lia. rewrite decide_True by lia.
  rewrite index_fill_scatter.
  - unfold topk_state. by rewrite Hl.
  - apply Forall_forall. intros i Hi. rewrite length_replicate, <- Hl.
    apply argsort_desc_lt. apply elem_of_take in Hi as (j & Hj & _).
    apply list_elem_of_lookup; eauto.
Qed.

Lemma weights_ok self theta :
  cache_ok self → (0 ≤ TopK.k self ≤ TopK.m self)%Z →
  length theta = Z.to_nat (TopK.m self) →
  TopK.weights theta self
  = (Ok ((λ r, dot r theta) <$> binrows (Z.to_nat (TopK.m self)) (Z.to_nat (TopK.k self))),
     TopK.set_states self (enum_states (TopK.m self) (TopK.k self))).
Proof.
  intros Hc Hk Hl. unfold TopK.weights, DiscreteExpFamily.weights, bind.
  rewrite states_ok by done. unfold lift, matvec. simpl.
  by rewrite decide_True.
Qed.


Lemma ones_zeroes l : binary l → ones l + zeroes l = length l.
Proof.
  unfold ones, zeroes. induction 1 as [|x l Hx _ IH]; [done|].
  rewrite !filter_cons. destruct Hx as [-> | ->].
  - rewrite decide_False by lra. rewrite decide_True by done. simpl. lia.
  - rewrite decide_True by done. rewrite decide_False by lra. simpl. lia.
Qed.








Lemma log_partition_ok self theta :
  cache_ok self → (0 ≤ TopK.k self ≤ TopK.m self)%Z →
  length theta = Z.to_nat (TopK.m self) →
  TopK.log_partition theta self
  = (Ok (ln (sumR (exp <$> ((λ r, dot r theta) <$>
                binrows (Z.to_nat (TopK.m self)) (Z.to_nat (TopK.k self)))))),
     TopK.set_states self (enum_states (TopK.m self) (TopK.k self))).
Proof.
  intros Hc Hk Hl. unfold TopK.log_partition, DiscreteExpFamily.log_partition, bind.
  fold (TopK.weights theta). by rewrite weights_ok.
Qed.

Lemma pmf_ok self theta :
  cache_ok self → (0 ≤ TopK.k self ≤ TopK.m self)%Z →
  length theta = Z.to_nat (TopK.m self) →
  let w := (λ r, dot r theta) <$>
             binrows (Z.to_nat (TopK.m self)) (Z.to_nat (TopK.k self)) in
  TopK.pmf theta self
  = (Ok ((λ x, exp (x - ln (sumR (exp <$> w)))%R) <$> w),
     TopK.set_states self (enum_states (TopK.m self) (TopK.k self))).
Proof.
  intros Hc Hk Hl w. unfold TopK.pmf, DiscreteExpFamily.pmf, bind at 1.
  fold (TopK.weights theta). rewrite weights_ok by done.
  unfold bind. fold (TopK.log_partition theta).
  rewrite log_partition_ok; [done|apply cache_ok_set_states|done..].
Qed.

Lemma grad_log_p_unfold {G} mu_f theta self (g : G) ctx :
  TopK.grad_log_p mu_f theta (MkEnv self g ctx)
  = match default_mu mu_f theta self with
    | (Raise e, self') => (Raise e, MkEnv self' g ctx)
    | (Ok mu, self') =>
        if hasattr_sample ctx
        then (rbind (getattr_sample ctx) (λ z, broadcast2 Rminus z mu),
              MkEnv self' g ctx)
        else (Raise (AssertionError "must save the forward value with ctx.sample!"),
              MkEnv self' g ctx)
    end.
Proof.
  unfold TopK.grad_log_p, DiscreteExpFamily.grad_log_p, default_mu, TopK.marginals.
  unfold bind at 1. unfold on_self. simpl.
  destruct (match mu_f with Some f => f | None => _ end theta self) as [[mu|e] self']; [|done].
  unfold bind, get, py_assert, lift. simpl.
  destruct (hasattr_sample ctx); simpl; [|done].
  by destruct (getattr_sample ctx).
Qed.

Lemma marginals_ok self theta :
  cache_ok self → (0 ≤ TopK.k self ≤ TopK.m self)%Z →
  length theta = Z.to_nat (TopK.m self) →
  ∃ mu, TopK.marginals theta self
        = (Ok mu, TopK.set_states self (enum_states (TopK.m self) (TopK.k self)))
      ∧ length mu = Z.to_nat (TopK.m self).
Proof.
  intros Hc Hk Hl. unfold TopK.marginals, DiscreteExpFamily.marginals, bind at 1.
  fold (TopK.pmf theta). rewrite pmf_ok by done. unfold bind.
  rewrite states_ok; [|apply cache_ok_set_states|done].
  unfold lift, vecmat, nrows. simpl rows. rewrite !length_fmap.
  rewrite decide_True by done. eexists. split; [done|].
  by rewrite length_fmap, length_seq.
Qed.



Lemma length_concat_const {A} (cs : list (list A)) n :
  Forall (λ c, length c = n) cs → length (concat cs) = length cs * n.
Proof.
  induction 1 as [|c cs Hc _ IH]; [done|].
  rewrite concat_cons, length_app, IH, Hc. simpl. lia.
Qed.

Lemma zip_repeat_concat (cs : list (list nat)) n : ∀ s,
  Forall (λ c, length c = n) cs →
  zip (concat ((λ i, replicate n i) <$> seq s (length cs))) (concat cs)
  = concat (zip_with (λ i c, pair i <$> c) (seq s (length cs)) cs).
Proof.
  induction cs as [|c cs IH]; intros s Hall; [done|].
  apply Forall_cons in Hall as [Hc Hall]. simpl length. simpl seq.
  rewrite fmap_cons, !concat_cons. simpl zip_with at 2. rewrite concat_cons.
  rewrite zip_with_app by (rewrite length_replicate; lia).
  rewrite zip_with_replicate_l by lia. f_equal. by apply IH.
Qed.

Lemma fill2_rows z v (cs : list (list nat)) : ∀ pre,
  Forall (Forall (λ j, j < length z)) cs →
  index_fill2 (pre ++ replicate (length cs) z)
    (concat (zip_with (λ i c, pair i <$> c) (seq (length pre) (length cs)) cs)) v
  = Ok (pre ++ ((λ c, scatter z c v) <$> cs)).
Proof.
  induction cs as [|c cs IH]; intros pre Hall; [done|].
  apply Forall_cons in Hall as [Hc Hall]. simpl length. simpl seq.
  simpl zip_with. rewrite concat_cons, index_fill2_app.
  simpl replicate. erewrite index_fill2_row; [|by apply list_lookup_middle|done].
  simpl rbind. rewrite insert_app_r_alt by lia. rewrite Nat.sub_diag. simpl.
  specialize (IH (pre ++ [scatter z c v]) Hall).
  rewrite length_app in IH. simpl in IH. rewrite Nat.add_1_r, <- !app_assoc in IH.
  exact IH.
Qed.


Lemma length_take_argsort k theta :
  k ≤ length theta → length (take k (argsort_desc theta)) = k.
Proof. intros. rewrite length_take, length_argsort_desc. lia. Qed.

Lemma map_2d_ok self theta_2d :
  (0 ≤ TopK.k self ≤ TopK.m self)%Z →
  tensor2_wf theta_2d → ncols theta_2d = Z.to_nat (TopK.m self) →
  ∃ state_2d,
    TopK.map_2d theta_2d self = (Ok state_2d, self)
    ∧ nrows state_2d = nrows theta_2d
    ∧ ncols state_2d = Z.to_nat (TopK.m self)
    ∧ ∀ i theta, rows theta_2d !! i = Some theta →
        ∃ x, rows state_2d !! i = Some x ∧ TopK.map theta self = (Ok x, self).
Proof.
  intros Hk Hwf Hn.
  set (n := Z.to_nat (TopK.m self)). set (kk := Z.to_nat (TopK.k self)).
  set (cs := (λ r, take kk (argsort_desc r)) <$> rows theta_2d).
  assert (Forall (λ r, length r = n) (rows theta_2d)) as Hrows.
  { unfold tensor2_wf in Hwf. by rewrite Hn in Hwf. }
  assert (Forall (λ c, length c = kk) cs) as Hcs.
  { apply Forall_fmap. eapply Forall_impl; [exact Hrows|]. intros r Hr. simpl.
    apply length_take_argsort. unfold kk, n in *. lia. }
  assert (Forall (Forall (λ j, j < length (replicate n 0%R))) cs) as Hbound.
  { apply Forall_fmap. eapply Forall_impl; [exact Hrows|]. intros r Hr. simpl.
    apply Forall_forall. intros j Hj. rewrite length_replicate, <- Hr.
    apply argsort_desc_lt. apply elem_of_take in Hj as (a & Ha & _).
    apply list_elem_of_lookup; eauto. }
  exists (Tensor2 n ((λ c, scatter (replicate n 0%R) c 1%R) <$> cs)).
  split; [|split; [|split]].
  - unfold TopK.map_2d, bind, get, lift, zeros2, zeros, TopK.repeat_each, py_slice_to.
    rewrite !decide_False by lia. simpl rbind. cbv iota beta.
    assert ((λ r, if decide (0 ≤ TopK.k self)%Z
                  then take (Z.to_nat (TopK.k self)) (argsort_desc r)
                  else take (length (argsort_desc r) - Z.to_nat (- TopK.k self))
                         (argsort_desc r)) <$> rows theta_2d = cs) as ->.
    { apply list_fmap_ext. intros i r _. by rewrite decide_True by lia. }
    fold n kk. unfold broadcast_index, nrows.
    assert (length cs = length (rows theta_2d)) as Hlen by (unfold cs; by rewrite length_fmap).
    rewrite <- Hlen.
    rewrite decide_True; cycle 1.
    { rewrite (length_concat_const cs kk Hcs), (length_concat_const _ kk).
      - by rewrite length_fmap, length_seq.
      - apply Forall_fmap, Forall_forall. intros i _. simpl. apply length_replicate. }
    rewrite zip_repeat_concat by done. simpl rows.
    pose proof (fill2_rows (replicate n 0%R) 1%R cs [] Hbound) as Hfill.
    simpl in Hfill. rewrite Hfill. done.
  - unfold nrows, cs. simpl. by rewrite !length_fmap.
  - done.
  - intros i theta Hi. simpl rows. unfold cs.
    rewrite <- list_fmap_compose, list_lookup_fmap, Hi. simpl.
    eexists. split; [done|].
    assert (length theta = n) as Hl by (eapply Forall_lookup in Hrows; eauto).
    rewrite topk_map_ok by (done || lia). unfold topk_state. by rewrite Hl.
Qed.


Section PerturbAndMap.
Context {G : Type}.
Variable noise_f : G → R * G.




End PerturbAndMap.

(** * The model on small inputs *)

(** Decides the comparisons of real constants an evaluation meets. *)
Ltac decide_reals :=
  repeat (case_decide; simpl in *; try lra).

Example combinations_3_2 :
  combinations (py_range 3) 2 = Ok [[0; 1]; [0; 2]; [1; 2]].
Proof. reflexivity. Qed.

Example argsort_desc_ex : argsort_desc ex_theta = [0; 2; 1].
Proof. unfold argsort_desc, ex_theta. simpl. decide_reals. reflexivity. Qed.

Example argmax_first_of_ties : argmax [1; 3; 3; 2]%R = Ok 1.
Proof. simpl. decide_reals. reflexivity. Qed.


Example map_ex : TopK.map ex_theta ex_self = (Ok [1; 0; 1]%R, ex_self).
Proof.
  unfold TopK.map, bind, get, lift. simpl. rewrite argsort_desc_ex. reflexivity.
Qed.

Example base_map_ex : (TopK.base_map ex_theta ex_self).1 = Ok [1; 0; 1]%R.
Proof.
  unfold TopK.base_map, DiscreteExpFamily.map, bind at 1.
  rewrite states_fresh by (simpl; (done || lia)).
  unfold bind at 1. fold (TopK.weights ex_theta).
  rewrite weights_ok; [|apply cache_ok_set_states|simpl; lia|reflexivity].
  unfold bind, lift, ex_theta. simpl. decide_reals. reflexivity.
Qed.

Example map_k_gt_m :
  TopK.map ex_theta (TopK.Make 3 5 None None)
  = (Ok [1; 1; 1]%R, TopK.Make 3 5 None None).
Proof.
  unfold TopK.map, bind, get, lift. simpl. rewrite argsort_desc_ex. reflexivity.
Qed.

Example map_2d_k_gt_m :
  (TopK.map_2d ex_batch (TopK.Make 3 5 None None)).1
  = Raise (IndexError "shape mismatch: indexing tensors could not be broadcast together").
Proof.
  unfold TopK.map_2d, bind, get, lift, ex_batch, argsort_desc. simpl.
  decide_reals. reflexivity.
Qed.

(** * The claims *)


(** C2: for [1 ≤ k ≤ m] the state matrix has C(m, k) rows, each a
    vector of length [m] over 0 and 1 with [k] ones and [m - k] zeros,
    and no row occurs twice. *)
Theorem topk_states_enumeration self :
  cache_valid self → (1 ≤ TopK.k self ≤ TopK.m self)%Z →
  let n := Z.to_nat (TopK.m self) in
  let r := Z.to_nat (TopK.k self) in
  ∃ s, TopK.states self = (Ok s, TopK.set_states self s)
    ∧ nrows s = choose n r
    ∧ nrows s * (fact r * fact (n - r)) = fact n
    ∧ ncols s = n
    ∧ Forall (λ x, length x = n ∧ binary x ∧ ones x = r ∧ zeroes x = n - r) (rows s)
    ∧ NoDup (rows s).
Proof.
  intros Hv Hk n r. exists (enum_states (TopK.m self) (TopK.k self)).
  split; [apply states_ok; [apply cache_valid_ok|]; (done || lia)|].
  unfold nrows. simpl. fold n r. rewrite length_binrows.
  split; [done|]. split; [apply choose_fact; lia|]. split; [done|].
  split; [|apply NoDup_binrows].
  apply Forall_forall. intros x (Hl & Hb & Ho)%elem_of_binrows.
  repeat split; try done. pose proof (ones_zeroes x Hb). lia.
Qed.


(** C4: with the default marginal function, for [theta] of length [m]
    and a context whose [sample] is a vector [z] of length [m], the
    closure of [grad_log_p] returns [z - marginals(theta)], a vector of
    length [m]. *)
Theorem grad_log_p_value {G} self theta (g : G) c z :
  cache_valid self → (1 ≤ TopK.k self ≤ TopK.m self)%Z →
  length theta = Z.to_nat (TopK.m self) →
  sample c = Some z → length z = Z.to_nat (TopK.m self) →
  ∃ mu self',
    TopK.marginals theta self = (Ok mu, self')
    ∧ TopK.grad_log_p None theta (MkEnv self g (Some c))
      = (Ok (zip_with Rminus z mu), MkEnv self' g (Some c))
    ∧ length (zip_with Rminus z mu) = Z.to_nat (TopK.m self).
Proof.
  intros Hv Hk Hl Hz Hlz.
  assert (cache_ok self) as Hc by (apply cache_valid_ok; [lia|done]).
  destruct (marginals_ok self theta Hc ltac:(lia) Hl) as (mu & Hmu & Hlmu).
  eexists mu, _. split; [exact Hmu|]. split.
  - rewrite grad_log_p_unfold. simpl default_mu. rewrite Hmu.
    destruct c as [e s f]. simpl in Hz. subst s. simpl.
    unfold broadcast2. rewrite decide_True by lia. done.
  - rewrite length_zip_with. lia.
Qed.

(** C5: called with a context that has no [sample] attribute ([None]
    included), the closure of [grad_log_p] raises and returns no value,
    whatever [theta] and the marginal function. *)
Theorem grad_log_p_requires_sample {G} mu_f theta (env : Env TopK.t G) :
  hasattr_sample (env_ctx env) = false →
  ∃ e env', TopK.grad_log_p mu_f theta env = (Raise e, env').
Proof.
  intros Hs. destruct env as [self g ctx]. simpl in Hs.
  rewrite grad_log_p_unfold, Hs.
  destruct (default_mu mu_f theta self) as [[mu|e] self']; eauto.
Qed.

(** C6: for a batch [theta_2d] of shape [(batch, m)], row [i] of
    [map_2d(theta_2d)] is [map(theta_2d[i])], for every row index [i]. *)
Theorem map_2d_rows self theta_2d i theta :
  (1 ≤ TopK.k self ≤ TopK.m self)%Z →
  tensor2_wf theta_2d → ncols theta_2d = Z.to_nat (TopK.m self) →
  rows theta_2d !! i = Some theta →
  ∃ state_2d x,
    TopK.map_2d theta_2d self = (Ok state_2d, self)
    ∧ nrows state_2d = nrows theta_2d
    ∧ ncols state_2d = Z.to_nat (TopK.m self)
    ∧ rows state_2d !! i = Some x
    ∧ TopK.map theta self = (Ok x, self).
Proof.
  intros Hk Hwf Hn Hi.
  destruct (map_2d_ok self theta_2d ltac:(lia) Hwf Hn) as (st & Hst & Hr & Hc & Hrows).
  destruct (Hrows i theta Hi) as (x & Hx & Hmap).
  exists st, x. done.
Qed.





(** C10: called with a context without [sample], the closure of
    [grad_log_p] has evaluated the marginal function before it fails:
    an exception of the marginal function is the one raised, otherwise
    the assertion fails; the object is left as the marginal function
    left it (with the default one, its state matrix is now cached) and
    the context is unchanged. *)
Theorem grad_log_p_evaluates_mu_first {G} mu_f theta self (g : G) ctx
    theta0 self0 :
  hasattr_sample ctx = false →
  TopK._states self0 = None → (1 ≤ TopK.k self0 ≤ TopK.m self0)%Z →
  length theta0 = Z.to_nat (TopK.m self0) →
  TopK.grad_log_p mu_f theta (MkEnv self g ctx)
  = (match (default_mu mu_f theta self).1 with
     | Raise e => Raise e
     | Ok _ => Raise (AssertionError "must save the forward value with ctx.sample!")
     end,
     MkEnv (default_mu mu_f theta self).2 g ctx)
  ∧ ∃ s, (TopK.states self0).1 = Ok s
       ∧ TopK.grad_log_p None theta0 (MkEnv self0 g ctx)
         = (Raise (AssertionError "must save the forward value with ctx.sample!"),
            MkEnv (TopK.set_states self0 s) g ctx).
Proof.
  intros Hs Hnone Hk Hl. split.
  - rewrite grad_log_p_unfold, Hs.
    by destruct (default_mu mu_f theta self) as [[mu|e] self'].
  - assert (cache_ok self0) as Hc by (by left).
    destruct (marginals_ok self0 theta0 Hc ltac:(lia) Hl) as (mu & Hmu & _).
    eexists. split; [by rewrite states_ok by (done || lia)|].
    rewrite grad_log_p_unfold. simpl default_mu. by rewrite Hmu, Hs.
Qed.

(** * The theorems at sample inputs *)

Lemma ex_self_cache_valid : cache_valid ex_self.
Proof. intros s Hs. discriminate Hs. Defined.



Lemma topk_states_enumeration_witness :
  cache_valid ex_self
  ∧ (1 ≤ TopK.k ex_self ≤ TopK.m ex_self)%Z
  ∧ ∃ s, (TopK.states ex_self).1 = Ok s ∧ nrows s = 3 ∧ NoDup (rows s).
Proof.
  assert (1 ≤ TopK.k ex_self ≤ TopK.m ex_self)%Z as Hk by (simpl; lia).
  split; [exact ex_self_cache_valid|]. split; [exact Hk|].
  destruct (topk_states_enumeration ex_self ex_self_cache_valid Hk)
    as (s & Hs & Hn & _ & _ & _ & Hnd).
  exists s. split; [by rewrite Hs|]. split; [exact Hn|exact Hnd].
Defined.


Lemma grad_log_p_value_witness :
  cache_valid ex_self
  ∧ (1 ≤ TopK.k ex_self ≤ TopK.m ex_self)%Z
  ∧ length ex_theta = Z.to_nat (TopK.m ex_self)
  ∧ sample ex_ctx_sample = Some [1; 1; 0]%R
  ∧ length [1; 1; 0]%R = Z.to_nat (TopK.m ex_self)
  ∧ ∃ mu, (TopK.marginals ex_theta ex_self).1 = Ok mu
        ∧ (TopK.grad_log_p None ex_theta (MkEnv ex_self tt (Some ex_ctx_sample))).1
          = Ok (zip_with Rminus [1; 1; 0]%R mu).
Proof.
  assert (1 ≤ TopK.k ex_self ≤ TopK.m ex_self)%Z as Hk by (simpl; lia).
  assert (length ex_theta = Z.to_nat (TopK.m ex_self)) as Hl by reflexivity.
  assert (length [1; 1; 0]%R = Z.to_nat (TopK.m ex_self)) as Hz by reflexivity.
  split; [exact ex_self_cache_valid|]. split; [exact Hk|]. split; [exact Hl|].
  split; [reflexivity|]. split; [exact Hz|].
  destruct (grad_log_p_value ex_self ex_theta tt ex_ctx_sample [1; 1; 0]%R
              ex_self_cache_valid Hk Hl eq_refl Hz)
    as (mu & self' & Hmu & Hg & _).
  exists mu. split; [by rewrite Hmu|by rewrite Hg].
Defined.

Lemma grad_log_p_requires_sample_witness :
  hasattr_sample (env_ctx (MkEnv ex_self tt None)) = false
  ∧ ∃ e env', TopK.grad_log_p None ex_theta (MkEnv ex_self tt None) = (Raise e, env').
Proof.
  split; [reflexivity|].
  apply (grad_log_p_requires_sample None ex_theta (MkEnv ex_self tt None)).
  reflexivity.
Defined.

Lemma ex_batch_wf : tensor2_wf ex_batch.
Proof. repeat constructor. Defined.

Lemma map_2d_rows_witness :
  (1 ≤ TopK.k ex_self ≤ TopK.m ex_self)%Z
  ∧ tensor2_wf ex_batch
  ∧ ncols ex_batch = Z.to_nat (TopK.m ex_self)
  ∧ rows ex_batch !! 1 = Some [1; 2; 3]%R
  ∧ ∃ state_2d x,
      TopK.map_2d ex_batch ex_self = (Ok state_2d, ex_self)
      ∧ rows state_2d !! 1 = Some x
      ∧ TopK.map [1; 2; 3]%R ex_self = (Ok x, ex_self).
Proof.
  assert (1 ≤ TopK.k ex_self ≤ TopK.m ex_self)%Z as Hk by (simpl; lia).
  split; [exact Hk|]. split; [exact ex_batch_wf|]. split; [reflexivity|].
  split; [reflexivity|].
  destruct (map_2d_rows ex_self ex_batch 1 [1; 2; 3]%R Hk ex_batch_wf eq_refl eq_refl)
    as (st & x & Hst & _ & _ & Hx & Hmap).
  exists st, x. split; [exact Hst|]. split; [exact Hx|exact Hmap].
Defined.




Lemma grad_log_p_evaluates_mu_first_witness :
  hasattr_sample None = false
  ∧ TopK._states ex_self = None
  ∧ (1 ≤ TopK.k ex_self ≤ TopK.m ex_self)%Z
  ∧ length ex_theta = Z.to_nat (TopK.m ex_self)
  ∧ ∃ s, (TopK.states ex_self).1 = Ok s
       ∧ TopK.grad_log_p None ex_theta (MkEnv ex_self tt None)
         = (Raise (AssertionError "must save the forward value with ctx.sample!"),
            MkEnv (TopK.set_states ex_self s) tt None).
Proof.
  assert (1 ≤ TopK.k ex_self ≤ TopK.m ex_self)%Z as Hk by (simpl; lia).
  assert (length ex_theta = Z.to_nat (TopK.m ex_self)) as Hl by reflexivity.
  split; [reflexivity|]. split; [reflexivity|]. split; [exact Hk|]. split; [exact Hl|].
  destruct (grad_log_p_evaluates_mu_first None ex_theta ex_self tt None
              ex_theta ex_self eq_refl eq_refl Hk Hl) as [_ Hs].
  exact Hs.
Defined.

(** * Further properties *)

(** X1: an access to [states] that succeeds leaves the matrix in
    [_states], where every later access finds it, and changes nothing
    else of the object; an access that raises leaves the object as it
    was, so the next one raises again. *)
Theorem states_memoised self :
  match TopK.states self with
  | (Ok s, self') =>
      TopK._states self' = Some s
      ∧ TopK.states self' = (Ok s, self')
      ∧ TopK.m self' = TopK.m self ∧ TopK.k self' = TopK.k self
      ∧ TopK.device self' = TopK.device self
  | (Raise e, self') => self' = self
  end.
Proof.
  destruct self as [m k dev [s|]]; [done|].
  unfold TopK.states, bind, get, lift, put, ret, py_assert, raise. simpl.
  destruct (combinations _ _) as [combs|e]; [|done].
  destruct (factorial m) as [fm|e]; [|done].
  destruct (factorial k) as [fk|e]; [|done].
  destruct (factorial (m - k)) as [fnk|e]; [|done].
  destruct (TopK.count_check _ _ _ _); [|done].
  destruct (np_zeros2 _ _) as [mat|e]; [|done].
  destruct (for_each _ _ _) as [filled|e]; [|done].
  done.
Qed.

Lemma cache_valid_set_states self :
  (0 ≤ TopK.k self ≤ TopK.m self)%Z →
  cache_valid (TopK.set_states self (enum_states (TopK.m self) (TopK.k self))).
Proof.
  intros Hk s Hs. simpl in Hs. inversion Hs; subst s.
  unfold fresh. simpl. by rewrite states_fresh.
Qed.

(** X2: on a [theta] whose length is not [m], [weights],
    [log_partition], [pmf], [marginals] and the map over the enumeration
    raise the size error of the matrix product, after the state matrix
    has been computed and cached. *)
Theorem weights_shape_mismatch self theta :
  cache_valid self → (0 ≤ TopK.k self ≤ TopK.m self)%Z →
  length theta ≠ Z.to_nat (TopK.m self) →
  ∃ s, (TopK.states self).1 = Ok s
     ∧ TopK.weights theta self
       = (Raise (RuntimeError "size mismatch"), TopK.set_states self s)
     ∧ TopK.log_partition theta self = (Raise (RuntimeError "size mismatch"), TopK.set_states self s)
       ∧ TopK.pmf theta self = (Raise (RuntimeError "size mismatch"), TopK.set_states self s)
       ∧ TopK.marginals theta self = (Raise (RuntimeError "size mismatch"), TopK.set_states self s)
       ∧ TopK.base_map theta self = (Raise (RuntimeError "size mismatch"), TopK.set_states self s).
Proof.
  intros Hv Hk Hl. assert (cache_ok self) as Hc by (by apply cache_valid_ok).
  exists (enum_states (TopK.m self) (TopK.k self)).
  split; [by rewrite states_ok|].
  assert (TopK.weights theta self
          = (Raise (RuntimeError "size mismatch"),
             TopK.set_states self (enum_states (TopK.m self) (TopK.k self)))) as Hw.
  { unfold TopK.weights, DiscreteExpFamily.weights, bind. rewrite states_ok by done.
    unfold lift, matvec. simpl. by rewrite decide_False by lia. }
  split; [done|].
  assert (TopK.log_partition theta self
          = (Raise (RuntimeError "size mismatch"),
             TopK.set_states self (enum_states (TopK.m self) (TopK.k self)))) as Hlp.
  { unfold TopK.log_partition, DiscreteExpFamily.log_partition, bind.
    fold (TopK.weights theta). by rewrite Hw. }
  split; [done|].
  assert (TopK.pmf theta self
          = (Raise (RuntimeError "size mismatch"),
             TopK.set_states self (enum_states (TopK.m self) (TopK.k self)))) as Hp.
  { unfold TopK.pmf, DiscreteExpFamily.pmf, bind.
    fold (TopK.weights theta). by rewrite Hw. }
  split; [done|]. split.
  - unfold TopK.marginals, DiscreteExpFamily.marginals, bind.
    fold (TopK.pmf theta). by rewrite Hp.
  - unfold TopK.base_map, DiscreteExpFamily.map, bind at 1.
    rewrite states_ok by done. unfold bind.
    assert (TopK.weights theta (TopK.set_states self (enum_states (TopK.m self) (TopK.k self)))
            = (Raise (RuntimeError "size mismatch"),
               TopK.set_states self (enum_states (TopK.m self) (TopK.k self)))) as Hw'.
    { unfold TopK.weights, DiscreteExpFamily.weights, bind.
      rewrite states_ok; [|apply cache_ok_set_states|done].
      unfold lift, matvec. simpl. by rewrite decide_False by lia. }
    fold (TopK.weights theta). by rewrite Hw'.
Qed.
































(** X8: in the state [TopK.map] returns, no coordinate marked 0 has a
    larger [theta] than a coordinate marked 1. *)
Theorem topk_map_marks_largest self theta t i j x y :
  (0 ≤ TopK.k self ≤ TopK.m self)%Z →
  length theta = Z.to_nat (TopK.m self) →
  (TopK.map theta self).1 = Ok t →
  t !! i = Some 1%R → t !! j = Some 0%R →
  theta !! i = Some x → theta !! j = Some y →
  (y <= x)%R.
Proof.
  intros Hk Hl Ht Hi Hj Hx Hy.
  rewrite topk_map_ok in Ht by (done || lia). simpl in Ht. inversion Ht; subst t. clear Ht.
  destruct (decide (TopK.k self = 0%Z)) as [Hz|Hz].
  - exfalso. rewrite Hz in Hi. unfold topk_state in Hi. simpl in Hi.
    apply lookup_replicate in Hi as [Hi _]. lra.
  - destruct (topk_state_above (Z.to_nat (TopK.k self)) theta ltac:(lia)) as (tau & Hab & _).
    pose proof (Forall2_lookup_lr _ _ _ _ _ _ Hab Hi Hx) as [[_ H1]|[H1 _]]; [|lra].
    pose proof (Forall2_lookup_lr _ _ _ _ _ _ Hab Hj Hy) as [[H2 _]|[_ H2]]; lra.
Qed.

Lemma binary_ones_full t : binary t → ones t = length t → t = replicate (length t) 1%R.
Proof.
  induction 1 as [|x t Hx Ht IH]; intros Ho; [done|].
  rewrite ones_cons in Ho. simpl length in *.
  assert (ones t ≤ length t) as Hle.
  { pose proof (ones_zeroes t Ht). lia. }
  destruct Hx as [-> | ->].
  - rewrite decide_False in Ho by lra. lia.
  - rewrite decide_True in Ho by done. simpl. f_equal. apply IH. lia.
Qed.

Lemma length_py_slice_to {A} (k : Z) (l : list A) :
  length (py_slice_to k l)
  = Z.to_nat (if decide (0 ≤ k)%Z then Z.min k (Z.of_nat (length l))
              else Z.max 0 (Z.of_nat (length l) + k)).
Proof.
  unfold py_slice_to. case_decide; rewrite length_take; lia.
Qed.

Lemma py_slice_to_prefix {A} (k : Z) (l : list A) :
  ∃ n, py_slice_to k l = take n l.
Proof. unfold py_slice_to. case_decide; eauto. Qed.

Lemma topk_map_returns self theta :
  (0 ≤ TopK.m self)%Z → length theta = Z.to_nat (TopK.m self) →
  ∃ t, TopK.map theta self = (Ok t, self)
     ∧ length t = Z.to_nat (TopK.m self)
     ∧ binary t
     ∧ ones t = Z.to_nat (if decide (0 ≤ TopK.k self)%Z
                          then Z.min (TopK.k self) (TopK.m self)
                          else Z.max 0 (TopK.m self + TopK.k self))
     ∧ if decide (TopK.m self ≤ TopK.k self)%Z
       then t = replicate (Z.to_nat (TopK.m self)) 1%R
       else True.
Proof.
  intros Hm Hl.
  set (ind := py_slice_to (TopK.k self) (argsort_desc theta)).
  assert (TopK.map theta self
          = (Ok (scatter (replicate (Z.to_nat (TopK.m self)) 0%R) ind 1%R), self)) as Hmap.
  { unfold TopK.map, bind, get, lift, zeros. rewrite decide_False by lia.
    fold ind. rewrite index_fill_scatter; [done|].
    apply Forall_forall. intros i Hi. rewrite length_replicate, <- Hl.
    apply argsort_desc_lt. destruct (py_slice_to_prefix (TopK.k self) (argsort_desc theta)) as [n Hn].
    unfold ind in Hi. rewrite Hn in Hi. apply elem_of_take in Hi as (a & Ha & _).
    apply list_elem_of_lookup; eauto. }
  assert (ones (scatter (replicate (Z.to_nat (TopK.m self)) 0%R) ind 1%R)
          = Z.to_nat (if decide (0 ≤ TopK.k self)%Z
                      then Z.min (TopK.k self) (TopK.m self)
                      else Z.max 0 (TopK.m self + TopK.k self))) as Hones.
  { rewrite ones_scatter, ones_replicate.
    - unfold ind. rewrite length_py_slice_to, length_argsort_desc, Hl.
      rewrite Z2Nat.id by lia. lia.
    - destruct (py_slice_to_prefix (TopK.k self) (argsort_desc theta)) as [n Hn].
      unfold ind. rewrite Hn. pose proof (argsort_desc_NoDup theta) as Hnd.
      rewrite <- (take_drop n (argsort_desc theta)) in Hnd.
      by apply NoDup_app in Hnd as [? _].
    - apply Forall_forall. intros i Hi. apply lookup_replicate_2. rewrite <- Hl.
      apply argsort_desc_lt. destruct (py_slice_to_prefix (TopK.k self) (argsort_desc theta)) as [n Hn].
      unfold ind in Hi. rewrite Hn in Hi. apply elem_of_take in Hi as (a & Ha & _).
      apply list_elem_of_lookup; eauto. }
  eexists. split; [exact Hmap|].
  split; [by rewrite length_scatter, length_replicate|].
  split; [apply binary_scatter|]. split; [exact Hones|].
  destruct (decide (TopK.m self ≤ TopK.k self)%Z) as [Hge|Hlt0]; [|exact I].
  set (t := scatter _ _ _) in *.
  assert (length t = Z.to_nat (TopK.m self)) as Hlt
    by (unfold t; by rewrite length_scatter, length_replicate).
  rewrite <- Hlt. apply binary_ones_full; [apply binary_scatter|].
  rewrite Hones, Hlt. rewrite decide_True by lia. lia.
Qed.

(** X9: [TopK.map] raises for no [k]: on a [theta] of length [m] it
    returns a vector over 0 and 1 with [min(k, m)] ones when [k] is not
    negative, all ones when [k >= m], and [max(m + k, 0)] ones when [k]
    is negative (the slice [[:k]] then counts from the end). *)
Theorem topk_map_any_k self theta :
  (0 ≤ TopK.m self)%Z → length theta = Z.to_nat (TopK.m self) →
  ∃ t, TopK.map theta self = (Ok t, self)
     ∧ length t = Z.to_nat (TopK.m self)
     ∧ binary t
     ∧ ones t = Z.to_nat (if decide (0 ≤ TopK.k self)%Z
                          then Z.min (TopK.k self) (TopK.m self)
                          else Z.max 0 (TopK.m self + TopK.k self))
     ∧ if decide (TopK.m self ≤ TopK.k self)%Z
       then t = replicate (Z.to_nat (TopK.m self)) 1%R
       else True.
Proof.
  exact (topk_map_returns self theta).
Qed.

Lemma broadcast_index_mismatch d0 d1 :
  length d0 ≠ length d1 → 2 ≤ length d0 → 2 ≤ length d1 →
  broadcast_index d0 d1
  = Raise (IndexError "shape mismatch: indexing tensors could not be broadcast together").
Proof.
  intros Hne H0 H1. unfold broadcast_index. rewrite decide_False by done.
  destruct d0 as [|? [|? ?]], d1 as [|? [|? ?]]; simpl in *; try lia; done.
Qed.

(** X10: for [k] outside [0..m], [map_2d] raises on every batch of
    two rows or more (from [repeat] when [k] is negative, from the
    index shapes when [k > m]), while [map] returns a state for each of
    the rows. *)
Theorem map_2d_rejects_k_out_of_range self theta_2d :
  ¬ (0 ≤ TopK.k self ≤ TopK.m self)%Z → (1 ≤ TopK.m self)%Z →
  tensor2_wf theta_2d → ncols theta_2d = Z.to_nat (TopK.m self) →
  2 ≤ nrows theta_2d →
  TopK.map_2d theta_2d self
  = (Raise (if decide (TopK.k self < 0)%Z
            then RuntimeError "Trying to create tensor with negative dimension"
            else IndexError "shape mismatch: indexing tensors could not be broadcast together"),
     self)
  ∧ Forall (λ theta, ∃ t, TopK.map theta self = (Ok t, self)) (rows theta_2d).
Proof.
  intros Hk Hm Hwf Hn Hb. split.
  - unfold TopK.map_2d, bind, get, lift, zeros2, zeros, TopK.repeat_each.
    rewrite decide_False by lia. simpl rbind. cbv iota beta.
    case_decide as Hneg; [done|].
    assert (TopK.m self < TopK.k self)%Z as Hgt by lia.
    rewrite broadcast_index_mismatch; [done| | |].
    + rewrite (length_concat_const _ (Z.to_nat (TopK.k self))),
        (length_concat_const _ (Z.to_nat (TopK.m self))).
      * rewrite !length_fmap, length_seq. unfold nrows in *. nia.
      * apply Forall_fmap. unfold tensor2_wf in Hwf. rewrite Hn in Hwf.
        eapply Forall_impl; [exact Hwf|]. intros r Hr. simpl.
        rewrite length_py_slice_to, length_argsort_desc, Hr. rewrite decide_True by lia. lia.
      * apply Forall_fmap, Forall_forall. intros i _. simpl. apply length_replicate.
    + rewrite (length_concat_const _ (Z.to_nat (TopK.k self))).
      * rewrite !length_fmap, length_seq. unfold nrows in *. nia.
      * apply Forall_fmap, Forall_forall. intros i _. simpl. apply length_replicate.
    + rewrite (length_concat_const _ (Z.to_nat (TopK.m self))).
      * rewrite !length_fmap. unfold nrows in *. nia.
      * apply Forall_fmap. unfold tensor2_wf in Hwf. rewrite Hn in Hwf.
        eapply Forall_impl; [exact Hwf|]. intros r Hr. simpl.
        rewrite length_py_slice_to, length_argsort_desc, Hr. rewrite decide_True by lia. lia.
  - unfold tensor2_wf in Hwf. rewrite Hn in Hwf.
    eapply Forall_impl; [exact Hwf|]. intros theta Hl. simpl in Hl.
    destruct (topk_map_returns self theta ltac:(lia) Hl) as (t & Ht & _). eauto.
Qed.




(** X13: when [m <= 0] and the context carries no [eps], the closure of
    [perturb_and_map] raises from the stack of an empty list, leaving
    generator and context as they were. *)
Theorem perturb_and_map_needs_positive_m {G} (noise_f : G → R * G)
    self theta g ctx :
  (TopK.m self ≤ 0)%Z → hasattr_eps ctx = false →
  TopK.perturb_and_map noise_f theta (MkEnv self g ctx)
  = (Raise (RuntimeError "stack expects a non-empty TensorList"), MkEnv self g ctx).
Proof.
  intros Hm Hh.
  unfold TopK.perturb_and_map, DiscreteExpFamily.perturb_and_map.
  unfold bind, get, DiscreteExpFamily.stack_noise. simpl. rewrite Hh.
  cbn [env_self env_gen env_ctx].
  assert (Z.to_nat (TopK.m self) = 0) as -> by lia. done.
Qed.



Lemma split_nonempty sep s : Py.split sep s ≠ [].
Proof.
  destruct s as [|c s]; simpl; [done|].
  case_decide; [done|]. by destruct (Py.split sep s).
Qed.

Lemma split_cons_ne sep c s :
  c ≠ sep →
  ∃ p ps, Py.split sep s = p :: ps ∧ Py.split sep (String c s) = String c p :: ps.
Proof.
  intros Hc. simpl. rewrite decide_False by done.
  destruct (Py.split sep s) as [|p ps] eqn:Hs; [by apply split_nonempty in Hs|].
  eauto.
Qed.

Lemma join_cons_cons sep p q ps :
  join sep (p :: q :: ps) = (p ++ sep ++ join sep (q :: ps))%string.
Proof. done. Qed.

Lemma join_split sep s : join (String sep EmptyString) (Py.split sep s) = s.
Proof.
  induction s as [|c s IH]; [done|].
  destruct (decide (c = sep)) as [->|Hc].
  - simpl Py.split. rewrite decide_True by done.
    destruct (Py.split sep s) as [|p ps] eqn:Hs; [by apply split_nonempty in Hs|].
    rewrite join_cons_cons, IH. done.
  - destruct (split_cons_ne sep c s Hc) as (p & ps & Hs & ->).
    rewrite Hs in IH. destruct ps as [|q ps].
    + simpl in *. by rewrite IH.
    + rewrite join_cons_cons in *. rewrite <- IH. done.
Qed.

Lemma split_pieces_free sep s : Forall (λ p, sep ∉ chars p) (Py.split sep s).
Proof.
  induction s as [|c s IH].
  - simpl. constructor; [|constructor]. simpl. by intros ?%elem_of_nil.
  - destruct (decide (c = sep)) as [->|Hc].
    + simpl. rewrite decide_True by done. constructor; [|done].
      simpl. by intros ?%elem_of_nil.
    + destruct (split_cons_ne sep c s Hc) as (p & ps & Hs & ->).
      rewrite Hs in IH. apply Forall_cons in IH as [Hp Hps].
      constructor; [|done]. simpl. intros [?|?]%elem_of_cons; done.
Qed.

Lemma length_split sep s :
  length (Py.split sep s) = S (length (filter (λ c, c = sep) (chars s))).
Proof.
  induction s as [|c s IH]; [done|].
  simpl chars. rewrite filter_cons. destruct (decide (c = sep)) as [->|Hc].
  - simpl. rewrite decide_True by done. simpl. by rewrite IH.
  - destruct (split_cons_ne sep c s Hc) as (p & ps & Hs & ->).
    rewrite Hs in IH. simpl in *. done.
Qed.

Lemma split_free sep p : sep ∉ chars p → Py.split sep p = [p].
Proof.
  induction p as [|c p IH]; intros Hp; [done|].
  simpl in Hp. simpl. rewrite decide_False.
  - rewrite IH; [done|]. intros ?. apply Hp. by right.
  - intros ->. apply Hp. by left.
Qed.

Lemma split_app_free sep p s :
  sep ∉ chars p →
  Py.split sep (p ++ String sep s) = p :: Py.split sep s.
Proof.
  induction p as [|c p IH]; intros Hp.
  - simpl. by rewrite decide_True.
  - simpl in Hp. simpl. rewrite decide_False.
    + rewrite IH; [done|]. intros ?. apply Hp. by right.
    + intros ->. apply Hp. by left.
Qed.

Lemma split_join sep parts :
  parts ≠ [] → Forall (λ p, sep ∉ chars p) parts →
  Py.split sep (join (String sep EmptyString) parts) = parts.
Proof.
  intros Hne Hall. induction Hall as [|p parts Hp Hall IH]; [done|].
  destruct parts as [|q parts].
  - simpl. by apply split_free.
  - rewrite join_cons_cons.
    change (String sep EmptyString +:+ join (String sep EmptyString) (q :: parts))
      with (String sep (join (String sep EmptyString) (q :: parts))).
    rewrite split_app_free by done. f_equal. by apply IH.
Qed.

Lemma split_join_round_trip sep s parts :
  parts ≠ [] → Forall (λ p, sep ∉ chars p) parts →
  join (String sep EmptyString) (Py.split sep s) = s
  ∧ Forall (λ p, sep ∉ chars p) (Py.split sep s)
  ∧ length (Py.split sep s) = S (length (filter (λ c, c = sep) (chars s)))
  ∧ Py.split sep (join (String sep EmptyString) parts) = parts.
Proof.
  intros Hne Hall. split; [apply join_split|]. split; [apply split_pieces_free|].
  split; [apply length_split|by apply split_join].
Qed.

Lemma comprehension_ok {A B} (f : A → Py.outcome B) (g : A → B) l :
  Forall (λ x, f x = Py.Return (g x)) l →
  Py.comprehension f l = Py.Return (g <$> l).
Proof.
  induction 1 as [|x l Hx _ IH]; [done|]. simpl. by rewrite Hx, IH.
Qed.

Lemma comprehension_fmap {A B C} (f : B → Py.outcome C) (h : A → B) l :
  Py.comprehension f (h <$> l) = Py.comprehension (f ∘ h) l.
Proof.
  induction l as [|x l IH]; [done|]. rewrite fmap_cons.
  cbn [Py.comprehension]. by rewrite IH.
Qed.

Lemma comprehension_ext {A B} (f g : A → Py.outcome B) l :
  (∀ x, f x = g x) → Py.comprehension f l = Py.comprehension g l.
Proof. intros H. induction l as [|x l IH]; [done|]. simpl. by rewrite H, IH. Qed.

Lemma getitem_SS {A} (a b : A) parts i :
  Py.getitem (a :: b :: parts) (2 * S i + 1) = Py.getitem parts (2 * i + 1).
Proof.
  unfold Py.getitem. replace (2 * S i + 1) with (S (S (2 * i + 1))) by lia. done.
Qed.

Lemma odds_comprehension {A} (parts : list A) : ∀ n,
  n = length parts / 2 →
  Py.comprehension (λ i, Py.getitem parts (2 * i + 1)) (seq 0 n)
  = Py.Return (odds parts).
Proof.
  induction parts as [parts IH] using (induction_ltof1 _ length).
  unfold ltof in IH. intros n ->.
  destruct parts as [|a [|b parts]]; [done|done|].
  assert (length (a :: b :: parts) / 2 = S (length parts / 2)) as ->.
  { simpl length. change (S (S (length parts))) with (2 + length parts).
    rewrite (Nat.add_comm 2). replace (length parts + 2) with (length parts + 1 * 2) by lia.
    rewrite Nat.div_add by lia. lia. }
  cbn [seq Py.comprehension].
  change (Py.getitem (a :: b :: parts) (2 * 0 + 1)) with (Py.Return b).
  rewrite <- fmap_S_seq, comprehension_fmap.
  rewrite (comprehension_ext _ (λ i, Py.getitem parts (2 * i + 1)))
    by (intros i; apply getitem_SS).
  rewrite (IH parts); [done|simpl; lia|done].
Qed.

Lemma length_odds {A} (l : list A) : length (odds l) = length l / 2.
Proof.
  induction l as [l IH] using (induction_ltof1 _ length). unfold ltof in IH.
  destruct l as [|a [|b l]]; [done|done|].
  simpl odds. simpl length. rewrite IH by (simpl; lia).
  change (S (S (length l))) with (2 + length l).
  rewrite (Nat.add_comm 2). replace (length l + 2) with (length l + 1 * 2) by lia.
  rewrite Nat.div_add by lia. lia.
Qed.

Lemma highlights_ok s :
  ExploreData.count_highlights (Some s) = Py.Return (length (Py.split "*" s) / 2)
  ∧ ExploreData.highlights_of (Some s) (length (Py.split "*" s) / 2)
    = Py.Return (odds (Py.split "*" s)).
Proof.
  split; [done|]. unfold ExploreData.highlights_of. simpl.
  by apply odds_comprehension.
Qed.

(** X15: the two list comprehensions over [split('*')] raise no
    [IndexError]: they return the pieces at the odd positions, one for
    every two stars (rounded up), none of them with a star in it; on
    [a*h1*b*h2*c] they return [h1, h2]. *)
Theorem highlights_never_out_of_range s parts :
  parts ≠ [] → Forall (λ p, "*"%char ∉ chars p) parts →
  ∃ l hs,
    ExploreData.count_highlights (Some s) = Py.Return l
    ∧ ExploreData.highlights_of (Some s) l = Py.Return hs
    ∧ hs = odds (Py.split "*" s)
    ∧ length hs = S (length (filter (λ c, c = "*"%char) (chars s))) / 2
    ∧ Forall (λ h, "*"%char ∉ chars h) hs
    ∧ ExploreData.highlights_of (Some (join "*" parts)) (length parts / 2)
      = Py.Return (odds parts).
Proof.
  intros Hne Hall. destruct (highlights_ok s) as [Hc Hh].
  eexists _, _. split; [exact Hc|]. split; [exact Hh|]. split; [done|].
  split; [by rewrite length_odds, length_split|]. split.
  - pose proof (split_pieces_free "*" s) as Hfree.
    revert Hfree. generalize (Py.split "*" s). intros l.
    induction l as [l IH] using (induction_ltof1 _ length). unfold ltof in IH.
    destruct l as [|a [|b l]]; [constructor|constructor|].
    intros Hf. apply Forall_cons in Hf as [_ Hf]. apply Forall_cons in Hf as [Hb Hf].
    simpl. constructor; [done|]. apply IH; [simpl; lia|done].
  - destruct (highlights_ok (join "*" parts)) as [_ Hh'].
    rewrite (split_join "*" parts Hne Hall) in Hh'. exact Hh'.
Qed.

(** X16: on a row with the five columns, none of them [None] but
    possibly the label, the body of the loop raises nothing and yields
    the premise, a space and the hypothesis, the label, and the
    highlights of the premise followed by those of the hypothesis. *)
Theorem process_row_complete (r : ExploreData.row) p h label hp hh :
  r !! "Sentence1"%string = Some (Some p) →
  r !! "Sentence2"%string = Some (Some h) →
  r !! "gold_label"%string = Some label →
  r !! "Sentence1_marked_1"%string = Some (Some hp) →
  r !! "Sentence2_marked_1"%string = Some (Some hh) →
  ExploreData.process_row r
  = Py.Return (((p +:+ " ") +:+ h)%string, label,
               odds (Py.split "*" hp) ++ odds (Py.split "*" hh)).
Proof.
  intros H1 H2 H3 H4 H5. unfold ExploreData.process_row, ExploreData.field.
  rewrite H1, H2, H3, H4, H5. cbn [Py.obind ExploreData.concat].
  destruct (highlights_ok hp) as [Hc1 Hh1]. destruct (highlights_ok hh) as [Hc2 Hh2].
  rewrite Hc1, Hc2. cbn [Py.obind]. rewrite Hh1, Hh2. done.
Qed.

(** X17: on a row without one of the five columns the body of the
    loop raises. *)
Theorem process_row_missing_column (r : ExploreData.row) k :
  k ∈ ["Sentence1"; "Sentence2"; "gold_label"; "Sentence1_marked_1";
       "Sentence2_marked_1"]%string →
  r !! k = None →
  ∃ e, ExploreData.process_row r = Py.Raised e.
Proof.
  intros Hk Hnone.
  assert (r !! "Sentence1"%string = None ∨ r !! "Sentence2"%string = None
          ∨ r !! "gold_label"%string = None
          ∨ r !! "Sentence1_marked_1"%string = None
          ∨ r !! "Sentence2_marked_1"%string = None) as Hmiss.
  { repeat (apply elem_of_cons in Hk as [->|Hk]); [tauto..|by apply elem_of_nil in Hk]. }
  clear Hk Hnone. unfold ExploreData.process_row, ExploreData.field.
  destruct (r !! "Sentence1"%string) as [[v1|]|];
    destruct (r !! "Sentence2"%string) as [[v2|]|];
    destruct (r !! "gold_label"%string) as [v3|];
    destruct (r !! "Sentence1_marked_1"%string) as [[v4|]|];
    destruct (r !! "Sentence2_marked_1"%string) as [[v5|]|];
    cbn [Py.obind ExploreData.concat ExploreData.count_highlights
         ExploreData.split_star];
    first [by eexists | exfalso; intuition discriminate].
Qed.



Lemma comprehension_Forall2 {A B} (f : A → Py.outcome B) l ys :
  Py.comprehension f l = Py.Return ys → Forall2 (λ x y, f x = Py.Return y) l ys.
Proof.
  revert ys. induction l as [|x l IH]; intros ys H; simpl in H.
  - inversion H. constructor.
  - destruct (f x) as [y|e] eqn:Hx; [|done]. simpl in H.
    destruct (Py.comprehension f l) as [ys'|e]; [|done]. simpl in H.
    inversion H; subst. constructor; [done|by apply IH].
Qed.

Lemma comprehension_total {A B} (f : A → Py.outcome B) l :
  Forall (λ x, ∃ y, f x = Py.Return y) l → ∃ ys, Py.comprehension f l = Py.Return ys.
Proof.
  induction 1 as [|x l [y Hy] _ [ys IH]]; [by eexists|].
  simpl. rewrite Hy, IH. by eexists.
Qed.

Lemma prefix_empty s : String.prefix EmptyString s = true.
Proof. by destruct s. Qed.

Lemma startswith_B label :
  Py.startswith "B-" label = true →
  ∃ rest, label = String "B" (String "-" rest).
Proof.
  unfold Py.startswith. destruct label as [|c1 [|c2 rest]]; cbn [String.prefix].
  - done.
  - destruct (ascii_dec "B" c1); done.
  - destruct (ascii_dec "B" c1) as [<-|]; [|done].
    destruct (ascii_dec "-" c2) as [<-|]; [|done]. eauto.
Qed.

Lemma replace_B_not_B label :
  Py.startswith "B-" label = true →
  Py.startswith "B-" (Py.replace "B-" "I-" label) = false.
Proof.
  intros (rest & ->)%startswith_B.
  unfold Py.startswith, Py.replace.
  cbn [Py.replace_from String.prefix String.length].
  destruct (ascii_dec "B" "B") as [_|Hn]; [|done].
  destruct (ascii_dec "-" "-") as [_|Hn]; [|done].
  rewrite prefix_empty. cbn [Nat.sub append String.prefix].
  destruct (ascii_dec "B" "I") as [Heq|_]; [discriminate Heq|done].
Qed.

Lemma b_to_i_entry_spec L idx label j :
  L !! idx = Some label →
  ConllCli.b_to_i_entry L idx label = Py.Return j →
  ∃ lj, L !! j = Some lj
      ∧ (Py.startswith "B-" lj = true → j = idx)
      ∧ (Py.startswith "B-" label = false → j = idx).
Proof.
  intros Hidx. unfold ConllCli.b_to_i_entry.
  destruct (Py.startswith "B-" label) eqn:Hb; simpl.
  - destruct (Py.contains _ L) eqn:Hc.
    + unfold Py.index.
      destruct (list_find _ L) as [[i x]|] eqn:Hf; [|done].
      intros [= <-]. apply list_find_Some in Hf as (Hi & -> & _).
      exists (Py.replace "B-" "I-" label). split; [done|]. split; [|done].
      intros Hs. by rewrite replace_B_not_B in Hs.
    + intros [= <-]. exists label. done.
  - intros [= <-]. exists label. done.
Qed.

Lemma b_to_i_entry_total L idx label :
  ∃ j, ConllCli.b_to_i_entry L idx label = Py.Return j.
Proof.
  unfold ConllCli.b_to_i_entry.
  destruct (Py.startswith "B-" label && Py.contains _ L) eqn:Hc; [|by eexists].
  apply andb_true_iff in Hc as [_ Hc]. unfold Py.contains in Hc.
  apply bool_decide_eq_true in Hc. unfold Py.index.
  destruct (list_find_elem_of (λ y, y = Py.replace "B-" "I-" label) L _ Hc eq_refl)
    as [[i x] ->]. by eexists.
Qed.

Lemma b_to_i_label_lookup L b i j :
  ConllCli.b_to_i_label L = Py.Return b → b !! i = Some j →
  ∃ label, L !! i = Some label ∧ ConllCli.b_to_i_entry L i label = Py.Return j.
Proof.
  intros Hb Hi. apply comprehension_Forall2 in Hb.
  destruct (Forall2_lookup_r _ _ _ _ _ Hb Hi) as ([i' label] & Hz & He).
  apply lookup_zip_with_Some in Hz as (x & y & [= -> ->] & Hx & Hy).
  apply lookup_seq in Hx as [-> _]. eauto.
Qed.

Lemma b_to_i_label_returns L :
  ∃ b, ConllCli.b_to_i_label L = Py.Return b
     ∧ length b = length L
     ∧ Forall (λ j, j < length L) b.
Proof.
  destruct (comprehension_total
              (λ '(idx, label), ConllCli.b_to_i_entry L idx label)
              (zip (seq 0 (length L)) L)) as [b Hb].
  { apply Forall_forall. intros [idx label] _. apply b_to_i_entry_total. }
  exists b. split; [exact Hb|]. split.
  - apply comprehension_Forall2, Forall2_length in Hb.
    rewrite length_zip_with, length_seq in Hb. lia.
  - apply Forall_lookup. intros i j Hi.
    destruct (b_to_i_label_lookup L b i j Hb Hi) as (label & Hl & He).
    destruct (b_to_i_entry_spec L i label j Hl He) as (lj & Hj & _).
    by apply lookup_lt_Some in Hj.
Qed.

(** X19: building [b_to_i_label] never raises ([index] is only called
    on a label that is in the list); the table has one entry for each
    label, each an index of [label_list]. *)
Theorem b_to_i_label_total L :
  ∃ b, ConllCli.b_to_i_label L = Py.Return b
     ∧ length b = length L
     ∧ Forall (λ j, j < length L) b.
Proof.
  exact (b_to_i_label_returns L).
Qed.

(** X20: [b_to_i_label] is idempotent: an entry [j] is mapped to
    itself; a label that does not start with [B-] is mapped to itself,
    and an entry that moves goes to the label with [B-] replaced by
    [I-], which does not start with [B-]. *)
Theorem b_to_i_label_idempotent L b i j :
  ConllCli.b_to_i_label L = Py.Return b → b !! i = Some j →
  b !! j = Some j
  ∧ ∃ li lj, L !! i = Some li ∧ L !! j = Some lj
           ∧ (Py.startswith "B-" li = false → j = i)
           ∧ (j ≠ i → lj = Py.replace "B-" "I-" li
                      ∧ Py.startswith "B-" lj = false).
Proof.
  intros Hb Hi.
  destruct (b_to_i_label_lookup L b i j Hb Hi) as (li & Hli & He).
  destruct (b_to_i_entry_spec L i li j Hli He) as (lj & Hlj & Hstart & Hfix).
  assert (j ≠ i → lj = Py.replace "B-" "I-" li ∧ Py.startswith "B-" lj = false) as Hne.
  { intros Hji. unfold ConllCli.b_to_i_entry in He.
    destruct (Py.startswith "B-" li) eqn:Hs; [|simpl in He; congruence].
    destruct (Py.contains _ L); [|simpl in He; congruence]. simpl in He.
    unfold Py.index in He. destruct (list_find _ L) as [[i' x]|] eqn:Hf; [|done].
    inversion He; subst i'. apply list_find_Some in Hf as (Hx & -> & _).
    assert (lj = Py.replace "B-" "I-" li) as -> by congruence.
    split; [done|]. by apply replace_B_not_B. }
  split; [|by eauto 10].
  destruct (b_to_i_label_returns L) as (b' & Hb' & Hlen & _).
  assert (b' = b) as -> by congruence.
  destruct (lookup_lt_is_Some_2 b j) as [j' Hj'].
  { rewrite Hlen. by apply lookup_lt_Some in Hlj. }
  destruct (b_to_i_label_lookup L b j j' Hb Hj') as (lj' & Hlj' & He').
  assert (lj' = lj) as -> by congruence.
  destruct (b_to_i_entry_spec L j lj j' Hlj He') as (_ & _ & _ & Hfix').
  destruct (decide (j = i)) as [->|Hji].
  - congruence.
  - destruct (Hne Hji) as [_ Hs]. by rewrite (Hfix' Hs) in Hj'.
Qed.

Lemma label_to_id_valid n l :
  (0 ≤ l < Z.of_nat n)%Z → ConllCli.label_to_id n l = Py.Return l.
Proof. intros H. unfold ConllCli.label_to_id. by rewrite decide_True. Qed.

Lemma label_to_id_inv n l i :
  ConllCli.label_to_id n l = Py.Return i → i = l ∧ (0 ≤ l < Z.of_nat n)%Z.
Proof. unfold ConllCli.label_to_id. case_decide; [|done]. by intros [= ->]. Qed.

Lemma getitem_inv {A} (l : list A) i x :
  Py.getitem l i = Py.Return x → l !! i = Some x.
Proof. unfold Py.getitem. destruct (l !! i); [|done]. by intros [= ->]. Qed.

Lemma align_from_spec n b label : ∀ word_ids previous,
  Forall (λ l, 0 ≤ l < Z.of_nat n)%Z label →
  Forall (λ w, w < length label) (word_starts previous word_ids) →
  ∃ ids, ConllCli.align_from false n b label previous word_ids = Py.Return ids
       ∧ length ids = length word_ids
       ∧ filter (λ l, l ≠ (-100)%Z) ids
         = (λ w, nth w label 0%Z) <$> word_starts previous word_ids.
Proof.
  intros word_ids. induction word_ids as [|[w|] rest IH]; intros previous Hlab Hws.
  - by exists [].
  - cbn [ConllCli.align_from word_starts] in *. case_decide as Hne.
    + apply Forall_cons in Hws as [Hw Hws].
      destruct (IH (Some w) Hlab Hws) as (ids & -> & Hlen & Hf).
      destruct (lookup_lt_is_Some_2 label w Hw) as [l Hl].
      pose proof (proj1 (Forall_lookup _ _) Hlab _ _ Hl) as Hv. simpl in Hv.
      unfold Py.getitem. rewrite Hl. cbn [Py.obind].
      rewrite label_to_id_valid by done. cbn [Py.obind].
      exists (l :: ids). split; [done|]. split; [simpl; lia|].
      rewrite filter_cons_True by lia. rewrite fmap_cons, Hf. f_equal.
      by rewrite (nth_lookup_Some _ _ _ _ Hl).
    + destruct (IH (Some w) Hlab Hws) as (ids & -> & Hlen & Hf).
      cbn [Py.obind]. exists ((-100)%Z :: ids). split; [done|]. split; [simpl; lia|].
      by rewrite filter_cons_False by (intros H; by apply H).
  - cbn [ConllCli.align_from word_starts] in *.
    destruct (IH None Hlab Hws) as (ids & -> & Hlen & Hf).
    cbn [Py.obind]. exists ((-100)%Z :: ids). split; [done|]. split; [simpl; lia|].
    by rewrite filter_cons_False by (intros H; by apply H).
Qed.

Lemma fmap_nth_seq {A} (l : list A) d : (λ w, nth w l d) <$> seq 0 (length l) = l.
Proof.
  induction l as [|x l IH]; [done|]. simpl length. simpl seq.
  rewrite fmap_cons. simpl nth at 1. f_equal.
  rewrite <- fmap_S_seq, <- list_fmap_compose. exact IH.
Qed.

Lemma align_labels_tags n b word_ids label :
  Forall (λ l, 0 ≤ l < Z.of_nat n)%Z label →
  word_starts None word_ids = seq 0 (length label) →
  ∃ ids, ConllCli.align_labels ConllCli.label_all_tokens n b word_ids label
         = Py.Return ids
       ∧ length ids = length word_ids
       ∧ filter (λ l, l ≠ (-100)%Z) ids = label.
Proof.
  intros Hlab Hws.
  destruct (align_from_spec n b label word_ids None Hlab) as (ids & Hids & Hlen & Hf).
  { rewrite Hws. apply Forall_forall. intros w Hw%elem_of_seq. lia. }
  exists ids. split; [exact Hids|]. split; [done|].
  by rewrite Hf, Hws, fmap_nth_seq.
Qed.

(** X21: when the tokens visit the words in order and the tags are
    valid, the aligned labels have one entry for each token and, with
    the entries -100 removed, are the tags of the words. *)
Theorem align_labels_round_trip n b word_ids label :
  Forall (λ l, 0 ≤ l < Z.of_nat n)%Z label →
  word_starts None word_ids = seq 0 (length label) →
  ∃ ids, ConllCli.align_labels ConllCli.label_all_tokens n b word_ids label
         = Py.Return ids
       ∧ length ids = length word_ids
       ∧ filter (λ l, l ≠ (-100)%Z) ids = label.
Proof.
  exact (align_labels_tags n b word_ids label).
Qed.

Lemma align_from_shape n b label : ∀ word_ids previous ids,
  ConllCli.align_from false n b label previous word_ids = Py.Return ids →
  Forall2 (λ w id, (w = None → id = (-100)%Z)
                   ∧ (id = (-100)%Z ∨ (0 ≤ id < Z.of_nat n)%Z))
    word_ids ids.
Proof.
  intros word_ids. induction word_ids as [|w rest IH]; intros previous ids H.
  - simpl in H. inversion H. constructor.
  - cbn [ConllCli.align_from] in H.
    match type of H with Py.obind ?c _ = _ => destruct c as [id|e] eqn:Hid end; [|done].
    cbn [Py.obind] in H.
    destruct (ConllCli.align_from false n b label w rest) as [ids'|e] eqn:Hrest; [|done].
    cbn [Py.obind] in H. inversion H; subst ids. constructor; [|by eapply IH].
    destruct w as [w|].
    + split; [done|]. case_decide.
      * destruct (Py.getitem label w) as [l|]; [|done]. cbn [Py.obind] in Hid.
        apply label_to_id_inv in Hid as [-> ?]. by right.
      * inversion Hid. by left.
    + inversion Hid. split; [done|by left].
Qed.

(** X22: whenever the alignment returns, it returns one label for each
    token: -100 at the special tokens, -100 or a valid label elsewhere,
    and at most one label that is not -100 for each word start. *)
Theorem align_labels_shape n b word_ids label ids :
  ConllCli.align_labels ConllCli.label_all_tokens n b word_ids label = Py.Return ids →
  length ids = length word_ids
  ∧ Forall2 (λ w id, (w = None → id = (-100)%Z)
                     ∧ (id = (-100)%Z ∨ (0 ≤ id < Z.of_nat n)%Z))
      word_ids ids
  ∧ length (filter (λ l, l ≠ (-100)%Z) ids) ≤ length (word_starts None word_ids).
Proof.
  intros H. unfold ConllCli.align_labels, ConllCli.label_all_tokens in H.
  pose proof (align_from_shape _ _ _ _ _ _ H) as Hshape.
  split; [symmetry; by eapply Forall2_length|]. split; [done|].
  clear Hshape. revert ids H. generalize (@None nat) as previous.
  induction word_ids as [|w rest IH]; intros previous ids H.
  - simpl in H. by inversion H.
  - cbn [ConllCli.align_from] in H.
    match type of H with Py.obind ?c _ = _ => destruct c as [id|e] eqn:Hid end; [|done].
    cbn [Py.obind] in H.
    destruct (ConllCli.align_from false n b label w rest) as [ids'|e] eqn:Hrest; [|done].
    cbn [Py.obind] in H. inversion H; subst ids. specialize (IH _ _ Hrest).
    destruct w as [w|]; cbn [word_starts].
    + case_decide.
      * rewrite filter_cons. case_decide; simpl; lia.
      * inversion Hid. rewrite filter_cons_False by (intros Hc; by apply Hc). done.
    + inversion Hid. rewrite filter_cons_False by (intros Hc; by apply Hc). done.
Qed.

Lemma np_argmax_range scores i :
  ConllCli.np_argmax scores = Py.Return i → (0 ≤ i < Z.of_nat (length scores))%Z.
Proof.
  destruct scores as [|x l]; [done|]. simpl. intros [= <-].
  destruct (argmax_from_spec l 0 x 1) as [[-> _]|(n & y & -> & Hn & _)]; [lia|].
  apply lookup_lt_Some in Hn. lia.
Qed.

Lemma np_argmax_total scores :
  scores ≠ [] → ∃ i, ConllCli.np_argmax scores = Py.Return i.
Proof. destruct scores; [done|]. by eexists. Qed.

Lemma getitem_int_total {A} (l : list A) i :
  (0 ≤ i < Z.of_nat (length l))%Z →
  ∃ x, Py.getitem_int l i = Py.Return x ∧ l !! Z.to_nat i = Some x.
Proof.
  intros Hi. unfold Py.getitem_int, Py.getitem. rewrite decide_True by lia.
  destruct (lookup_lt_is_Some_2 l (Z.to_nat i)) as [x Hx]; [lia|].
  rewrite Hx. eauto.
Qed.

Lemma argmax_axis2_total (predictions : list (list (list R))) n :
  0 < n →
  Forall (Forall (λ scores, length scores = n)) predictions →
  ∃ preds, ConllCli.argmax_axis2 predictions = Py.Return preds
         ∧ Forall2 (Forall2 (λ scores p, (0 ≤ p < Z.of_nat n)%Z)) predictions preds.
Proof.
  intros Hn Hall. unfold ConllCli.argmax_axis2.
  assert (∀ row, Forall (λ scores, length scores = n) row →
            ∃ ps, Py.comprehension ConllCli.np_argmax row = Py.Return ps
                ∧ Forall2 (λ scores p, (0 ≤ p < Z.of_nat n)%Z) row ps) as Hrow.
  { intros row Hr. destruct (comprehension_total ConllCli.np_argmax row) as [ps Hps].
    - eapply Forall_impl; [exact Hr|]. intros scores Hs. simpl in Hs.
      apply np_argmax_total. intros ->. simpl in Hs. lia.
    - exists ps. split; [done|]. apply comprehension_Forall2 in Hps.
      apply Forall2_same_length_lookup_2; [by eapply Forall2_length|].
      intros i scores p Hs Hp.
      destruct (Forall2_lookup_l _ _ _ _ _ Hps Hs) as (p' & Hp' & Harg).
      assert (p' = p) as -> by congruence.
      apply np_argmax_range in Harg.
      pose proof (proj1 (Forall_lookup _ _) Hr _ _ Hs) as Hlen. simpl in Hlen. lia. }
  induction Hall as [|row predictions Hr _ IH].
  - exists []. split; [done|constructor].
  - destruct (Hrow row Hr) as (ps & Hps & Hrange).
    destruct IH as (preds & Hpreds & Hall).
    exists (ps :: preds). cbn [Py.comprehension]. rewrite Hps, Hpreds.
    split; [done|by constructor].
Qed.

Lemma kept_total (L : list string) (prediction label : list Z) :
  Forall (λ p, 0 ≤ p < Z.of_nat (length L))%Z prediction →
  Forall (λ l, l = (-100)%Z ∨ (0 ≤ l < Z.of_nat (length L))%Z) label →
  ∃ tp tl, ConllCli.kept_predictions L prediction label = Py.Return tp
         ∧ ConllCli.kept_labels L prediction label = Py.Return tl
         ∧ length tp = length tl.
Proof.
  intros Hp Hl. unfold ConllCli.kept_predictions, ConllCli.kept_labels.
  set (F := filter _ _).
  assert (Forall (λ '(p, l), (0 ≤ p < Z.of_nat (length L))%Z
                             ∧ (0 ≤ l < Z.of_nat (length L))%Z) F) as HF.
  { apply Forall_forall. intros [p l] Hin. unfold F in Hin.
    apply list_elem_of_filter in Hin as [Hne Hin].
    apply elem_of_zip_l in Hin as Hin1. apply elem_of_zip_r in Hin as Hin2.
    eapply Forall_forall in Hp; [|exact Hin1]. eapply Forall_forall in Hl; [|exact Hin2].
    simpl in *. lia. }
  destruct (comprehension_total (λ '(p, l), Py.getitem_int L p) F) as [tp Htp].
  { eapply Forall_impl; [exact HF|]. intros [p l] [H1 H2].
    destruct (getitem_int_total L p H1) as (x & Hx & _). eauto. }
  destruct (comprehension_total (λ '(p, l), Py.getitem_int L l) F) as [tl Htl].
  { eapply Forall_impl; [exact HF|]. intros [p l] [H1 H2].
    destruct (getitem_int_total L l H2) as (x & Hx & _). eauto. }
  exists tp, tl. split; [done|]. split; [done|].
  apply comprehension_Forall2, Forall2_length in Htp.
  apply comprehension_Forall2, Forall2_length in Htl. lia.
Qed.

(** X23: on scores with one entry for each label name and labels that
    are -100 or valid, [compute_metrics] raises nothing before it calls
    the metric, and gives it predictions and references of the same
    lengths, row by row. *)
Theorem compute_metrics_feeds_aligned {V} (L : list string)
    (metric_compute : list (list string) → list (list string)
                      → Py.outcome (ConllCli.results V))
    (predictions : list (list (list R))) (labels : list (list Z)) :
  0 < length L →
  Forall (Forall (λ scores, length scores = length L)) predictions →
  Forall (Forall (λ l, l = (-100)%Z ∨ (0 ≤ l < Z.of_nat (length L))%Z)) labels →
  ∃ preds tp tl,
    ConllCli.argmax_axis2 predictions = Py.Return preds
    ∧ ConllCli.true_predictions L preds labels = Py.Return tp
    ∧ ConllCli.true_labels L preds labels = Py.Return tl
    ∧ Forall2 (λ a b, length a = length b) tp tl
    ∧ length tp = length predictions `min` length labels
    ∧ ConllCli.compute_metrics L metric_compute (predictions, labels)
      = Py.obind (metric_compute tp tl)
          (λ r, Py.Return (ConllCli.Metrics (ConllCli.overall_precision r)
                             (ConllCli.overall_recall r) (ConllCli.overall_f1 r)
                             (ConllCli.overall_accuracy r))).
Proof.
  intros HL Hpred Hlab.
  destruct (argmax_axis2_total predictions (length L) HL Hpred) as (preds & Hpreds & Hrange).
  assert (Forall (λ '(prediction, label),
            ∃ tp tl, ConllCli.kept_predictions L prediction label = Py.Return tp
                   ∧ ConllCli.kept_labels L prediction label = Py.Return tl
                   ∧ length tp = length tl) (zip preds labels)) as Hrows.
  { apply Forall_forall. intros [prediction label] Hin.
    apply elem_of_zip_l in Hin as Hin1. apply elem_of_zip_r in Hin as Hin2.
    apply kept_total.
    - apply list_elem_of_lookup in Hin1 as [i Hi].
      destruct (Forall2_lookup_r _ _ _ _ _ Hrange Hi) as (row & _ & Hrow).
      apply Forall_forall. intros p Hp. apply list_elem_of_lookup in Hp as [j Hj].
      by destruct (Forall2_lookup_r _ _ _ _ _ Hrow Hj) as (_ & _ & ?).
    - eapply Forall_forall in Hlab; [exact Hlab|done]. }
  assert (∃ tp tl, ConllCli.true_predictions L preds labels = Py.Return tp
                 ∧ ConllCli.true_labels L preds labels = Py.Return tl
                 ∧ Forall2 (λ a b, length a = length b) tp tl
                 ∧ length tp = length (zip preds labels)) as (tp & tl & Htp & Htl & Hal & Hlen).
  { unfold ConllCli.true_predictions, ConllCli.true_labels.
    induction Hrows as [|[prediction label] rest (a & c & Ha & Hc & Hac) _ IH].
    - exists [], []. repeat split; constructor.
    - destruct IH as (tp & tl & Htp & Htl & Hal & Hlen).
      exists (a :: tp), (c :: tl). cbn [Py.comprehension].
      rewrite Ha, Hc, Htp, Htl. repeat split; [by constructor|simpl; lia]. }
  exists preds, tp, tl. split; [done|]. split; [done|]. split; [done|]. split; [done|].
  split.
  - rewrite Hlen, length_zip_with. apply Forall2_length in Hrange. lia.
  - unfold ConllCli.compute_metrics. rewrite Hpreds. cbn [Py.obind].
    rewrite Htp. cbn [Py.obind]. rewrite Htl. done.
Qed.

Lemma filter_zip_snd (p ids : list Z) :
  length p = length ids →
  snd <$> filter (λ '(p, l), l ≠ (-100)%Z) (zip p ids)
  = filter (λ l, l ≠ (-100)%Z) ids.
Proof.
  revert ids. induction p as [|a p IH]; intros [|l ids] Hlen; simpl in Hlen; try lia.
  - done.
  - cbn [zip_with]. rewrite !filter_cons. simpl.
    destruct (decide (l ≠ (-100)%Z)); [rewrite fmap_cons; simpl; f_equal|]; apply IH; lia.
Qed.

(** X24: the references [compute_metrics] keeps from aligned labels
    are the names of the tags of the words, whatever the predictions. *)
Theorem references_are_the_word_labels (L : list string) b word_ids label prediction :
  Forall (λ l, 0 ≤ l < Z.of_nat (length L))%Z label →
  word_starts None word_ids = seq 0 (length label) →
  length prediction = length word_ids →
  ∃ ids,
    ConllCli.align_labels ConllCli.label_all_tokens (length L) b word_ids label
    = Py.Return ids
    ∧ ConllCli.kept_labels L prediction ids
      = Py.Return ((λ l, nth (Z.to_nat l) L EmptyString) <$> label).
Proof.
  intros Hlab Hws Hlen.
  destruct (align_labels_tags (length L) b word_ids label Hlab Hws)
    as (ids & Hids & Hl & Hf).
  exists ids. split; [done|]. unfold ConllCli.kept_labels.
  pose proof (filter_zip_snd prediction ids ltac:(lia)) as Hsnd. rewrite Hf in Hsnd.
  rewrite <- Hsnd, <- list_fmap_compose.
  apply comprehension_ok. apply Forall_forall. intros [p l] Hin.
  assert (l ∈ label) as Hl'.
  { rewrite <- Hsnd. apply list_elem_of_fmap. by exists (p, l). }
  eapply Forall_forall in Hlab; [|exact Hl']. simpl in Hlab.
  destruct (getitem_int_total L l Hlab) as (x & Hx & Hlook).
  rewrite Hx. simpl. f_equal. symmetry. by apply nth_lookup_Some.
Qed.

(** * The further properties at sample inputs *)

Lemma ex_self_valid : (0 ≤ TopK.k ex_self ≤ TopK.m ex_self)%Z.
Proof. simpl. lia. Defined.


Lemma weights_shape_mismatch_witness :
  cache_valid ex_self ∧ (0 ≤ TopK.k ex_self ≤ TopK.m ex_self)%Z
  ∧ length [1; 2]%R ≠ Z.to_nat (TopK.m ex_self)
  ∧ ∃ s', TopK.pmf [1; 2]%R ex_self = (Raise (RuntimeError "size mismatch"), s').
Proof.
  assert (length [1; 2]%R ≠ Z.to_nat (TopK.m ex_self)) as Hl by (simpl; lia).
  split; [exact ex_self_cache_valid|]. split; [exact ex_self_valid|]. split; [exact Hl|].
  destruct (weights_shape_mismatch ex_self [1; 2]%R ex_self_cache_valid ex_self_valid Hl)
    as (s & _ & _ & _ & Hp & _).
  eexists. exact Hp.
Defined.








Lemma topk_map_marks_largest_witness :
  (0 ≤ TopK.k ex_self ≤ TopK.m ex_self)%Z
  ∧ length ex_theta = Z.to_nat (TopK.m ex_self)
  ∧ (TopK.map ex_theta ex_self).1 = Ok [1; 0; 1]%R
  ∧ (1 <= 3)%R.
Proof.
  assert ((TopK.map ex_theta ex_self).1 = Ok [1; 0; 1]%R) as Hm by (by rewrite map_ex).
  split; [exact ex_self_valid|]. split; [reflexivity|]. split; [exact Hm|].
  exact (topk_map_marks_largest ex_self ex_theta [1; 0; 1]%R 0 1 3%R 1%R
           ex_self_valid eq_refl Hm eq_refl eq_refl eq_refl eq_refl).
Defined.

Lemma topk_map_any_k_witness :
  (0 ≤ TopK.m ex_self_k5)%Z ∧ length ex_theta = Z.to_nat (TopK.m ex_self_k5)
  ∧ TopK.map ex_theta ex_self_k5 = (Ok [1; 1; 1]%R, ex_self_k5).
Proof.
  assert (0 ≤ TopK.m ex_self_k5)%Z as Hm by (simpl; lia).
  split; [exact Hm|]. split; [reflexivity|].
  destruct (topk_map_any_k ex_self_k5 ex_theta Hm eq_refl) as (t & Ht & _ & _ & _ & Hall).
  rewrite decide_True in Hall by (simpl; lia). rewrite Ht, Hall. reflexivity.
Defined.

Lemma map_2d_rejects_k_out_of_range_witness :
  ¬ (0 ≤ TopK.k ex_self_k5 ≤ TopK.m ex_self_k5)%Z ∧ (1 ≤ TopK.m ex_self_k5)%Z
  ∧ tensor2_wf ex_batch ∧ ncols ex_batch = Z.to_nat (TopK.m ex_self_k5)
  ∧ 2 ≤ nrows ex_batch
  ∧ ∃ e, TopK.map_2d ex_batch ex_self_k5 = (Raise e, ex_self_k5).
Proof.
  assert (¬ (0 ≤ TopK.k ex_self_k5 ≤ TopK.m ex_self_k5)%Z) as Hk by (simpl; lia).
  assert (1 ≤ TopK.m ex_self_k5)%Z as Hm by (simpl; lia).
  assert (2 ≤ nrows ex_batch) as Hb by (unfold nrows; simpl; lia).
  split; [exact Hk|]. split; [exact Hm|]. split; [exact ex_batch_wf|].
  split; [reflexivity|]. split; [exact Hb|].
  destruct (map_2d_rejects_k_out_of_range ex_self_k5 ex_batch Hk Hm ex_batch_wf eq_refl Hb)
    as [He _].
  eexists. exact He.
Defined.



Lemma perturb_and_map_needs_positive_m_witness :
  (TopK.m ex_self_m0 ≤ 0)%Z ∧ hasattr_eps None = false
  ∧ TopK.perturb_and_map ex_noise [] (MkEnv ex_self_m0 0 None)
    = (Raise (RuntimeError "stack expects a non-empty TensorList"),
       MkEnv ex_self_m0 0 None).
Proof.
  assert (TopK.m ex_self_m0 ≤ 0)%Z as Hm by (simpl; lia).
  split; [exact Hm|]. split; [reflexivity|].
  exact (perturb_and_map_needs_positive_m ex_noise ex_self_m0 [] 0 None Hm eq_refl).
Defined.




Lemma ex_parts_free : Forall (λ p, "*"%char ∉ chars p) ["a "; "h"; " b"]%string.
Proof.
  repeat constructor; simpl; intros H;
    repeat (apply elem_of_cons in H as [H|H]; [discriminate H|]);
    apply elem_of_nil in H; exact H.
Defined.

Lemma highlights_never_out_of_range_witness :
  ["a "; "h"; " b"]%string ≠ []
  ∧ Forall (λ p, "*"%char ∉ chars p) ["a "; "h"; " b"]%string
  ∧ ExploreData.highlights_of (Some "a *h* b"%string) 1 = Py.Return ["h"%string].
Proof.
  assert (["a "; "h"; " b"]%string ≠ []) as Hne by discriminate.
  split; [exact Hne|]. split; [exact ex_parts_free|].
  destruct (highlights_never_out_of_range "a *h* b"%string ["a "; "h"; " b"]%string
              Hne ex_parts_free) as (l & hs & _ & _ & _ & _ & _ & Hj).
  exact Hj.
Defined.

Lemma process_row_complete_witness :
  ex_row !! "Sentence1"%string = Some (Some "a dog runs"%string)
  ∧ ex_row !! "Sentence2"%string = Some (Some "an animal moves"%string)
  ∧ ex_row !! "gold_label"%string = Some (Some "entailment"%string)
  ∧ ex_row !! "Sentence1_marked_1"%string = Some (Some "a *dog* runs"%string)
  ∧ ex_row !! "Sentence2_marked_1"%string = Some (Some "an *animal* *moves*"%string)
  ∧ ExploreData.process_row ex_row
    = Py.Return ("a dog runs an animal moves"%string, Some "entailment"%string,
                 ["dog"; "animal"; "moves"]%string).
Proof.
  assert (ex_row !! "Sentence1"%string = Some (Some "a dog runs"%string)) as H1
    by (vm_compute; reflexivity).
  assert (ex_row !! "Sentence2"%string = Some (Some "an animal moves"%string)) as H2
    by (vm_compute; reflexivity).
  assert (ex_row !! "gold_label"%string = Some (Some "entailment"%string)) as H3
    by (vm_compute; reflexivity).
  assert (ex_row !! "Sentence1_marked_1"%string = Some (Some "a *dog* runs"%string)) as H4
    by (vm_compute; reflexivity).
  assert (ex_row !! "Sentence2_marked_1"%string
          = Some (Some "an *animal* *moves*"%string)) as H5
    by (vm_compute; reflexivity).
  split; [exact H1|]. split; [exact H2|]. split; [exact H3|]. split; [exact H4|].
  split; [exact H5|].
  exact (process_row_complete ex_row _ _ _ _ _ H1 H2 H3 H4 H5).
Defined.

Lemma process_row_missing_column_witness :
  "Sentence2"%string ∈ ["Sentence1"; "Sentence2"; "gold_label"; "Sentence1_marked_1";
                        "Sentence2_marked_1"]%string
  ∧ (∅ : ExploreData.row) !! "Sentence2"%string = None
  ∧ ∃ e, ExploreData.process_row ∅ = Py.Raised e.
Proof.
  assert ("Sentence2"%string ∈ ["Sentence1"; "Sentence2"; "gold_label";
                                "Sentence1_marked_1"; "Sentence2_marked_1"]%string) as Hk
    by (right; left).
  assert ((∅ : ExploreData.row) !! "Sentence2"%string = None) as Hn by reflexivity.
  split; [exact Hk|]. split; [exact Hn|].
  exact (process_row_missing_column ∅ "Sentence2"%string Hk Hn).
Defined.


Lemma b_to_i_label_idempotent_witness :
  ConllCli.b_to_i_label ex_label_list = Py.Return [0; 2; 2]
  ∧ [0; 2; 2] !! 1 = Some 2
  ∧ [0; 2; 2] !! 2 = Some 2.
Proof.
  assert (ConllCli.b_to_i_label ex_label_list = Py.Return [0; 2; 2]) as Hb
    by (vm_compute; reflexivity).
  split; [exact Hb|]. split; [reflexivity|].
  destruct (b_to_i_label_idempotent ex_label_list [0; 2; 2] 1 2 Hb eq_refl) as [Hj _].
  exact Hj.
Defined.

Lemma ex_tags_valid : Forall (λ l, 0 ≤ l < Z.of_nat (length ex_label_list))%Z ex_tags.
Proof. repeat constructor; simpl; lia. Defined.

Lemma align_labels_round_trip_witness :
  Forall (λ l, 0 ≤ l < Z.of_nat (length ex_label_list))%Z ex_tags
  ∧ word_starts None ex_word_ids = seq 0 (length ex_tags)
  ∧ ∃ ids, ConllCli.align_labels ConllCli.label_all_tokens (length ex_label_list)
             [0; 2; 2] ex_word_ids ex_tags = Py.Return ids
         ∧ length ids = 5
         ∧ filter (λ l, l ≠ (-100)%Z) ids = ex_tags.
Proof.
  assert (word_starts None ex_word_ids = seq 0 (length ex_tags)) as Hws by reflexivity.
  split; [exact ex_tags_valid|]. split; [exact Hws|].
  exact (align_labels_round_trip (length ex_label_list) [0; 2; 2] ex_word_ids ex_tags
           ex_tags_valid Hws).
Defined.

Lemma align_labels_shape_witness :
  ConllCli.align_labels ConllCli.label_all_tokens 3 [0; 2; 2] ex_word_ids ex_tags
  = Py.Return [-100; 1; -100; 2; -100]%Z
  ∧ length [-100; 1; -100; 2; -100]%Z = length ex_word_ids.
Proof.
  assert (ConllCli.align_labels ConllCli.label_all_tokens 3 [0; 2; 2] ex_word_ids ex_tags
          = Py.Return [-100; 1; -100; 2; -100]%Z) as Ha by (vm_compute; reflexivity).
  split; [exact Ha|].
  destruct (align_labels_shape 3 [0; 2; 2] ex_word_ids ex_tags _ Ha) as [Hl _].
  exact Hl.
Defined.

Lemma ex_scores_shape :
  Forall (Forall (λ scores : list R, length scores = length ex_label_list)) ex_scores.
Proof. repeat constructor. Defined.

Lemma ex_labels_valid :
  Forall (Forall (λ l, l = (-100)%Z ∨ (0 ≤ l < Z.of_nat (length ex_label_list))%Z))
    [[-100; 1; -100; 2; -100]%Z].
Proof.
  apply Forall_cons; split; [|apply Forall_nil; exact I].
  apply Forall_cons; split; [left; reflexivity|].
  apply Forall_cons; split; [right; simpl; lia|].
  apply Forall_cons; split; [left; reflexivity|].
  apply Forall_cons; split; [right; simpl; lia|].
  apply Forall_cons; split; [left; reflexivity|].
  apply Forall_nil; exact I.
Defined.

Lemma compute_metrics_feeds_aligned_witness :
  0 < length ex_label_list
  ∧ Forall (Forall (λ scores : list R, length scores = length ex_label_list)) ex_scores
  ∧ Forall (Forall (λ l, l = (-100)%Z ∨ (0 ≤ l < Z.of_nat (length ex_label_list))%Z))
      [[-100; 1; -100; 2; -100]%Z]
  ∧ ∃ tp tl, ConllCli.compute_metrics ex_label_list ex_metric
               (ex_scores, [[-100; 1; -100; 2; -100]%Z])
             = Py.obind (ex_metric tp tl)
                 (λ r, Py.Return (ConllCli.Metrics (ConllCli.overall_precision r)
                                    (ConllCli.overall_recall r) (ConllCli.overall_f1 r)
                                    (ConllCli.overall_accuracy r)))
           ∧ Forall2 (λ a b : list string, length a = length b) tp tl.
Proof.
  assert (0 < length ex_label_list) as HL by (simpl; lia).
  split; [exact HL|]. split; [exact ex_scores_shape|]. split; [exact ex_labels_valid|].
  destruct (compute_metrics_feeds_aligned ex_label_list ex_metric ex_scores
              [[-100; 1; -100; 2; -100]%Z] HL ex_scores_shape ex_labels_valid)
    as (preds & tp & tl & _ & _ & _ & Hal & _ & Hc).
  exists tp, tl. split; [exact Hc|exact Hal].
Defined.

Lemma references_are_the_word_labels_witness :
  Forall (λ l, 0 ≤ l < Z.of_nat (length ex_label_list))%Z ex_tags
  ∧ word_starts None ex_word_ids = seq 0 (length ex_tags)
  ∧ length [1; 1; 2; 2; 0]%Z = length ex_word_ids
  ∧ ∃ ids, ConllCli.kept_labels ex_label_list [1; 1; 2; 2; 0]%Z ids
           = Py.Return ["B-PER"; "I-PER"]%string.
Proof.
  assert (word_starts None ex_word_ids = seq 0 (length ex_tags)) as Hws by reflexivity.
  assert (length [1; 1; 2; 2; 0]%Z = length ex_word_ids) as Hl by reflexivity.
  split; [exact ex_tags_valid|]. split; [exact Hws|]. split; [exact Hl|].
  destruct (references_are_the_word_labels ex_label_list [0; 2; 2] ex_word_ids ex_tags
              [1; 1; 2; 2; 0]%Z ex_tags_valid Hws Hl) as (ids & _ & Hk).
  exists ids. exact Hk.
Defined.
